(** * MP4-to-MP3 converter: the batch conversion pipeline of [main.py]

    A shallow embedding of the parts of [main.py] that carry state and
    contracts: the ffmpeg command line built by
    [ConversionWorker._convert_single], the worker loop
    [ConversionWorker.run] with its stop flag, the task list kept by
    [MainWindow] ([_add_file_to_list], [_clear_list], [_start_conversion]) and
    the settings file ([_load_settings], [_save_settings]).

    Conventions.
    - A Python [str] is the [string] of its UTF-8 bytes. The characters the
      code looks for (the slash and the dot of a path, the text [.mp3]) are
      ASCII, and an ASCII byte is part of no other character's encoding, so
      searching and splitting go byte by byte; slicing and [len] count
      characters. A Python [float] is kept as the text that [str()] prints
      for it (the code only ever formats it).
    - A [dict] whose keys are fixed by the code is a record of optional
      fields ([None]: the key is missing, so [.get] falls back to its
      default); a [dict] read from JSON is an association list in insertion
      order.
    - What lies outside the process (the file system, the ffmpeg child
      process, the clock, the user pressing Stop) is an explicit environment
      argument.
    - Signals are delivered to their slots in emission order; the trace lists
      them together with the child processes that are spawned. *)

From stdpp Require Import base option list strings gmap sorting.
From Stdlib Require Import ZArith Lia Ascii.

Local Open Scope string_scope.
Local Open Scope list_scope.
Local Open Scope Z_scope.

(** ** Python built-ins *)

(** [list.insert(i, x)]: a negative index counts from the end and every index
    is clamped into [0, len]. *)
Definition py_insert {A} (i : Z) (x : A) (l : list A) : list A :=
  let n := Z.of_nat (length l) in
  let j := if i <? 0 then Z.max 0 (i + n) else Z.min i n in
  take (Z.to_nat j) l ++ x :: drop (Z.to_nat j) l.

(** In UTF-8 a byte [10xxxxxx] continues the character begun before it;
    every other byte begins a character. *)
Definition utf8_continuation (c : Ascii.ascii) : bool :=
  match c with
  | Ascii.Ascii _ _ _ _ _ _ b6 b7 => b7 && negb b6
  end.

(** [len(s)]: the number of characters. *)
Fixpoint py_len (s : string) : nat :=
  match s with
  | EmptyString => O
  | String c s' => if utf8_continuation c then py_len s' else S (py_len s')
  end.

(** [s[:n]]: the first [n] characters, each with all of its bytes. *)
Fixpoint py_prefix (n : nat) (s : string) : string :=
  match s with
  | EmptyString => EmptyString
  | String c s' =>
      if utf8_continuation c then String c (py_prefix n s')
      else match n with
           | O => EmptyString
           | S n' => String c (py_prefix n' s')
           end
  end.

(** [range(0, 101, 10)] *)
Definition progress_range : list Z := [0; 10; 20; 30; 40; 50; 60; 70; 80; 90; 100].

(** A float, as [str()] renders it: [-1.0] is ["-1.0"]. *)
Definition pyfloat := string.

(** ** [class ConversionTask] *)

Inductive Status := pending | converting | completed | failed.

Global Instance Status_eq_dec : EqDecision Status.
Proof. solve_decision. Defined.

Record ConversionTask := mkTask {
  input_path : string;
  output_path : string;
  status : Status;
  progress : Z;
  error_message : string;
  start_time : option nat;
  end_time : option nat;
  file_size : N
}.

Global Instance ConversionTask_eq_dec : EqDecision ConversionTask.
Proof. solve_decision. Defined.

Definition set_status (st : Status) (t : ConversionTask) : ConversionTask :=
  mkTask (input_path t) (output_path t) st (progress t) (error_message t)
         (start_time t) (end_time t) (file_size t).
Definition set_progress (p : Z) (t : ConversionTask) : ConversionTask :=
  mkTask (input_path t) (output_path t) (status t) p (error_message t)
         (start_time t) (end_time t) (file_size t).
Definition set_error_message (m : string) (t : ConversionTask) : ConversionTask :=
  mkTask (input_path t) (output_path t) (status t) (progress t) m
         (start_time t) (end_time t) (file_size t).
Definition set_start_time (c : nat) (t : ConversionTask) : ConversionTask :=
  mkTask (input_path t) (output_path t) (status t) (progress t) (error_message t)
         (Some c) (end_time t) (file_size t).
Definition set_end_time (c : nat) (t : ConversionTask) : ConversionTask :=
  mkTask (input_path t) (output_path t) (status t) (progress t) (error_message t)
         (start_time t) (Some c) (file_size t).
Definition set_output_path (o : string) (t : ConversionTask) : ConversionTask :=
  mkTask (input_path t) o (status t) (progress t) (error_message t)
         (start_time t) (end_time t) (file_size t).

(** [task.status.title()], the text of a status label. *)
Definition status_title (st : Status) : string :=
  match st with
  | pending => "Pending"
  | converting => "Converting"
  | completed => "Completed"
  | failed => "Failed"
  end.

(** Terminal states of a task. *)
Definition terminal (st : Status) : bool :=
  match st with completed | failed => true | _ => false end.

(** ** The worker's [config] dict *)

(** The dict built by [_start_conversion]; a field is [None] when the key is
    missing. *)
Record Config := mkConfig {
  bitrate : option string;
  preserve_metadata : option bool;
  extract_cover : option bool;
  normalize : option bool;
  target_db : option pyfloat
}.

(** [config.get(key, dflt)] *)
Definition get {A} (field : option A) (dflt : A) : A := default dflt field.

(** ** The ffmpeg command line, [_convert_single] lines 133-153 *)

Definition base_cmd (config : Config) (task : ConversionTask) : list string :=
  ["ffmpeg"; "-i"; input_path task;
   "-codec:a"; "libmp3lame";
   "-b:a"; get (bitrate config) "192k";
   "-q:a"; "2";
   "-y"; output_path task].

Definition add_metadata_flags (config : Config) (cmd : list string) : list string :=
  if get (preserve_metadata config) true then
    let cmd := py_insert (-1) "-map_metadata" cmd in
    let cmd := py_insert (-1) "0" cmd in
    let cmd := py_insert (-1) "-id3v2_version" cmd in
    py_insert (-1) "3" cmd
  else cmd.

Definition add_normalize_flags (config : Config) (cmd : list string) : list string :=
  if get (normalize config) false then
    let target := get (target_db config) "-1.0" in
    let cmd := py_insert (-2) "-af" cmd in
    py_insert (-2) ("volume=" +:+ target +:+ "dB") cmd
  else cmd.

Definition ffmpeg_cmd (config : Config) (task : ConversionTask) : list string :=
  add_normalize_flags config (add_metadata_flags config (base_cmd config task)).

(** [a] is immediately followed by [b] somewhere in [l]. *)
Fixpoint followed_by (a b : string) (l : list string) : bool :=
  match l with
  | x :: (y :: _) as l' =>
      (bool_decide (x = a) && bool_decide (y = b)) || followed_by a b l'
  | _ => false
  end.

(** ** [os.path] and [str] helpers (POSIX flavour) *)

Fixpoint has_char (c : Ascii.ascii) (s : string) : bool :=
  match s with
  | EmptyString => false
  | String c' s' => Ascii.eqb c c' || has_char c s'
  end.

(** [os.path.basename]: what follows the last slash. *)
Fixpoint basename (p : string) : string :=
  match p with
  | EmptyString => EmptyString
  | String _ p' => if has_char "/"%char p then basename p' else p
  end.

(** [s.replace(old, new)] for a non-empty [old]: all non-overlapping
    occurrences from the left. *)
Fixpoint py_replace_fuel (fuel : nat) (old new s : string) : string :=
  match fuel with
  | O => s
  | S fuel' =>
      match s with
      | EmptyString => EmptyString
      | String c s' =>
          if String.prefix old s
          then new +:+ py_replace_fuel fuel' old new
                         (String.substring (String.length old)
                            (String.length s - String.length old)%nat s)
          else String c (py_replace_fuel fuel' old new s')
      end
  end.

Definition py_replace (old new s : string) : string :=
  py_replace_fuel (S (String.length s)) old new s.

(** [name.rfind('.')] splits [name] into [name[:i]] and [name[i:]]; the second
    part is empty when there is no dot. *)
Fixpoint split_last_dot (name : string) : string * string :=
  match name with
  | EmptyString => (EmptyString, EmptyString)
  | String c name' =>
      if Ascii.eqb c "."%char && negb (has_char "."%char name')
      then (EmptyString, name)
      else let '(a, b) := split_last_dot name' in (String c a, b)
  end.

(** [PurePath.stem]: the suffix starts at the last dot, unless that dot
    opens or closes the name. *)
Definition path_stem (name : string) : string :=
  let '(a, b) := split_last_dot name in
  if negb (bool_decide (a = EmptyString)) && (1 <? String.length b)%nat
  then a else name.

(** ** [pathlib.PurePosixPath] as CPython 3.11 has it, as far as
    [Path(p).stem] and [Path(p).with_suffix(suffix)] need it *)

Module PurePosixPath.

(** [part.lstrip('/')] *)
Fixpoint lstrip_slash (s : string) : string :=
  match s with
  | EmptyString => EmptyString
  | String c s' => if Ascii.eqb c "/"%char then lstrip_slash s' else s
  end.

(** [rel.split('/')]: one string more than there are slashes. *)
Fixpoint split_slash (s : string) : list string :=
  match s with
  | EmptyString => [EmptyString]
  | String c s' =>
      if Ascii.eqb c "/"%char then EmptyString :: split_slash s'
      else match split_slash s' with
           | x :: xs => String c x :: xs
           | [] => [String c EmptyString]
           end
  end.

(** A parsed path: its root (none, one slash, or two) and the parts after
    the root. *)
Record t := mk {
  root : string;
  parts : list string
}.

(** [splitroot]: exactly two leading slashes are kept as they are, any other
    number of them is one slash. *)
Definition splitroot (part : string) : string * string :=
  let stripped := lstrip_slash part in
  let slashes := (String.length part - String.length stripped)%nat in
  if bool_decide (slashes = 0%nat) then (EmptyString, part)
  else if bool_decide (slashes = 2%nat) then ("//", stripped)
  else ("/", stripped).

(** [Path(p)]: [parse_parts] drops the empty parts and the single dots, so
    that a slash at the end, a doubled slash and [/./] leave no trace. *)
Definition parse (p : string) : t :=
  let '(root, rel) := splitroot p in
  mk root (filter (λ x, x ≠ EmptyString ∧ x ≠ ".") (split_slash rel)).

(** [.name]: the last part, or the empty string when there is none. *)
Definition name (path : t) : string := default EmptyString (last (parts path)).

(** [.stem] *)
Definition stem (path : t) : string := path_stem (name path).

(** [.with_suffix(suffix)]; [None] is its [ValueError]: a suffix with a
    slash, a suffix that is a lone dot or does not start with a dot, or a
    path without a name. The new name is the old one without its suffix,
    that is the stem, followed by [suffix]. *)
Definition with_suffix (path : t) (suffix : string) : option t :=
  if has_char "/"%char suffix then None
  else if (negb (bool_decide (suffix = EmptyString)) && negb (String.prefix "." suffix))
          || bool_decide (suffix = ".") then None
  else if bool_decide (name path = EmptyString) then None
  else Some (mk (root path) (removelast (parts path) ++ [stem path +:+ suffix])).

(** [str(path)] *)
Definition str (path : t) : string :=
  let s := root path +:+ String.concat "/" (parts path) in
  if bool_decide (s = EmptyString) then "." else s.

End PurePosixPath.

(** [str(Path(p).with_suffix(suffix))] *)
Definition with_suffix (p suffix : string) : option string :=
  PurePosixPath.str <$> PurePosixPath.with_suffix (PurePosixPath.parse p) suffix.

(** [os.path.join(a, b)] *)
Definition path_join (a b : string) : string :=
  if String.prefix "/" b then b
  else if bool_decide (a = EmptyString) || bool_decide (String.substring (String.length a - 1) 1 a = "/")
       then a +:+ b
       else a +:+ "/" +:+ b.

(** ** [class ConversionWorker] *)

Module ConversionWorker.

(** The signals of the worker, and the child processes it spawns. *)
Inductive Event :=
  | progress_updated (task_id : nat) (progress : Z) (current_time : Z)
  | task_completed (task_id : nat) (success : bool) (message : string)
  | conversion_started (task_id : nat)
  | log_message (message level : string)
  | subprocess_run (cmd : list string).

(** How a [subprocess.run] call ends. *)
Inductive ProcResult :=
  | Raised (e : string)                       (* the call raises, [str(e)] *)
  | Exited (returncode : Z) (stderr : string).

(** What one task meets outside the worker while it is in flight. *)
Record TaskEnv := mkEnv {
  makedirs_error : option string;   (* [os.makedirs] raises, [str(e)] *)
  ffmpeg_result : ProcResult;       (* the conversion command *)
  cover_art_error : option string;  (* an exception inside [_extract_cover_art] *)
  metadata_error : option string;   (* an exception inside [_preserve_metadata] *)
  stop_request : option nat;
    (* [Some j]: the GUI thread calls [stop()] while this task is in flight,
       after the progress loop has read the flag [j] times; when the loop
       makes fewer reads the call lands before the next read at the top of
       the task loop *)
  clock_start : nat;                (* [time.time()] when the task starts *)
  clock_end : nat                   (* [time.time()] when it ends *)
}.

(** The worker, the task list it shares with the window, and the status
    labels of the window's progress widgets (widget [i] holds task [i]). *)
Record State := mkState {
  tasks : list ConversionTask;
  is_running : bool;
  status_labels : list string;
  trace : list Event
}.

Definition update_task (i : nat) (f : ConversionTask -> ConversionTask)
    (w : State) : State :=
  mkState (alter f i (tasks w)) (is_running w) (status_labels w) (trace w).

Definition set_label (i : nat) (l : string) (w : State) : State :=
  mkState (tasks w) (is_running w) (<[i := l]> (status_labels w)) (trace w).

(** [ConversionWorker.__init__], with the widgets [_start_conversion] creates. *)
Definition init (tasks : list ConversionTask) : State :=
  mkState tasks true (map (fun task => status_title (status task)) tasks) [].

(** [ConversionWorker.stop] *)
Definition stop (w : State) : State :=
  mkState (tasks w) false (status_labels w) (trace w).

(** The slots of [MainWindow] connected to the signals. Each acts only when
    [task_id < len(self.progress_widgets)]. *)
Definition _on_progress_updated (task_id : nat) (p : Z) (w : State) : State :=
  if bool_decide (task_id < length (status_labels w))%nat then
    (* ConversionProgressWidget.update_progress *)
    let w := update_task task_id (set_progress p) w in
    if p =? 100 then set_label task_id "Completed" w else w
  else w.

Definition _on_task_completed (task_id : nat) (success : bool) (w : State) : State :=
  if bool_decide (task_id < length (status_labels w))%nat then
    set_label task_id (status_title (if success then completed else failed)) w
  else w.

Definition _on_conversion_started (task_id : nat) (w : State) : State :=
  if bool_decide (task_id < length (status_labels w))%nat then
    set_label task_id (status_title converting) w
  else w.

Definition deliver (e : Event) (w : State) : State :=
  match e with
  | progress_updated i p _ => _on_progress_updated i p w
  | task_completed i ok _ => _on_task_completed i ok w
  | conversion_started i => _on_conversion_started i w
  | log_message _ _ => w
  | subprocess_run _ => w
  end.

Definition record (e : Event) (w : State) : State :=
  mkState (tasks w) (is_running w) (status_labels w) (trace w ++ [e]).

(** [signal.emit(...)] *)
Definition emit (e : Event) (w : State) : State := deliver e (record e w).

(** A pending [stop()] of the environment lands before the flag is read. *)
Definition land_stop (env : TaskEnv) (reads : nat) (w : State) : State :=
  match stop_request env with
  | Some j => if bool_decide (j <= reads)%nat then stop w else w
  | None => w
  end.

Definition land_stop_end (env : TaskEnv) (w : State) : State :=
  match stop_request env with
  | Some _ => stop w
  | None => w
  end.

Section Worker.

Variable HAS_MUTAGEN : bool.
Variable config : Config.

(** [for progress in range(0, 101, 10)]; [false] when the loop returns
    early because the flag is down. [self.tasks.index(task)] is the position
    [i] of the task object. *)
Fixpoint progress_loop (i : nat) (env : TaskEnv) (reads : nat) (ps : list Z)
    (w : State) : bool * State :=
  match ps with
  | [] => (true, w)
  | p :: ps' =>
      let w := land_stop env reads w in
      if negb (is_running w) then (false, w)
      else progress_loop i env (S reads) ps' (emit (progress_updated i p 0) w)
  end.

Definition _extract_cover_art (env : TaskEnv) (video_path audio_path : string)
    (w : State) : State :=
  let cover_path := py_replace ".mp3" "_cover.jpg" audio_path in
  let cmd := ["ffmpeg"; "-i"; video_path; "-an"; "-vcodec"; "png";
              "-vframes"; "1"; "-y"; cover_path] in
  let w := record (subprocess_run cmd) w in
  match cover_art_error env with
  | Some e => emit (log_message ("Cover art error: " +:+ e) "warning") w
  | None => w
  end.

Definition _preserve_metadata (env : TaskEnv) (video_path audio_path : string)
    (w : State) : State :=
  if negb HAS_MUTAGEN then w
  else match metadata_error env with
       | Some e => emit (log_message ("Metadata error: " +:+ e) "warning") w
       | None => w
       end.

(** [_convert_single]: the whole body sits in [try ... except Exception], so
    the call always returns a pair. *)
Definition _convert_single (i : nat) (task : ConversionTask) (env : TaskEnv)
    (w : State) : (bool * string) * State :=
  match makedirs_error env with
  | Some e => ((false, "Conversion error: " +:+ e), w)
  | None =>
      let cmd := ffmpeg_cmd config task in
      let w := emit (log_message ("Converting: " +:+ basename (input_path task)) "info") w in
      let '(finished, w) := progress_loop i env 0 progress_range w in
      if negb finished then ((false, "Conversion cancelled"), w)
      else
        let w := record (subprocess_run cmd) w in
        match ffmpeg_result env with
        | Raised e => ((false, "Conversion error: " +:+ e), w)
        | Exited returncode stderr =>
            if returncode =? 0 then
              let w := if get (extract_cover config) true && HAS_MUTAGEN
                       then _extract_cover_art env (input_path task) (output_path task) w
                       else w in
              let w := if get (preserve_metadata config) true && HAS_MUTAGEN
                       then _preserve_metadata env (input_path task) (output_path task) w
                       else w in
              ((true, "Conversion successful"), w)
            else ((false, "FFmpeg error: " +:+ py_prefix 200 stderr), w)
        end
  end.

(** One pass of the body of the loop of [run] for task [i]. *)
Definition run_task (i : nat) (task : ConversionTask) (env : TaskEnv)
    (w : State) : State :=
  let w := emit (conversion_started i) w in
  let w := update_task i (set_status converting) w in
  let w := update_task i (set_start_time (clock_start env)) w in
  let '((success, message), w) := _convert_single i task env w in
  let w := update_task i (set_status (if success then completed else failed)) w in
  let w := update_task i (set_error_message (if success then "" else message)) w in
  let w := update_task i (set_end_time (clock_end env)) w in
  let w := emit (task_completed i success message) w in
  land_stop_end env w.

(** [for i, task in enumerate(self.tasks)], from position [i] on. *)
Fixpoint run_from (i : nat) (rest : list ConversionTask) (world : nat -> TaskEnv)
    (w : State) : State :=
  match rest with
  | [] => w
  | task :: rest' =>
      if negb (is_running w) then w
      else run_from (S i) rest' world (run_task i task (world i) w)
  end.

(** [ConversionWorker.run] *)
Definition run (world : nat -> TaskEnv) (w : State) : State :=
  run_from 0 (tasks w) world w.

End Worker.

End ConversionWorker.

(** ** Values read from JSON, and [dict] *)

#[local] Set Warnings "-register-all".

Inductive pyval :=
  | PNone
  | PBool (b : bool)
  | PInt (z : Z)
  | PFloat (f : pyfloat)
  | PStr (s : string)
  | PList (l : list pyval)
  | PDict (d : list (string * pyval)).

(** A [dict] with string keys, in insertion order. *)
Abbreviation pydict := (list (string * pyval)).

Fixpoint dict_get (k : string) (d : pydict) : option pyval :=
  match d with
  | [] => None
  | (k', v) :: d' => if bool_decide (k' = k) then Some v else dict_get k d'
  end.

(** [d[k] = v]: an existing key keeps its place, a new key goes last. *)
Fixpoint dict_set (k : string) (v : pyval) (d : pydict) : pydict :=
  match d with
  | [] => [(k, v)]
  | (k', v') :: d' =>
      if bool_decide (k' = k) then (k, v) :: d' else (k', v') :: dict_set k v d'
  end.

Definition keys (d : pydict) : list string := map fst d.

(** How a call ends for its caller: with a value, or with an exception of
    the class named. *)
Inductive CallResult :=
  | Returns (value : pyval)
  | Raises (exception : string).

(** The caller is told of an error: an exception, or a value other than
    [None]. *)
Definition reports_error (r : CallResult) : bool :=
  match r with
  | Returns PNone => false
  | _ => true
  end.

(** ** [@dataclass class AppConfig] *)

Module AppConfig.

Definition field_names : list string :=
  ["default_bitrate"; "default_format"; "output_directory";
   "preserve_metadata"; "extract_cover"; "theme"; "max_concurrent";
   "auto_clear_list"; "notification_sound"].

(** The defaults; [converted_audio] is [os.path.expanduser('~/ConvertedAudio')]. *)
Definition defaults (converted_audio : string) : pydict :=
  [("default_bitrate", PStr "192k");
   ("default_format", PStr "mp3");
   ("output_directory", PStr converted_audio);
   ("preserve_metadata", PBool true);
   ("extract_cover", PBool true);
   ("theme", PStr "dark");
   ("max_concurrent", PInt 2);
   ("auto_clear_list", PBool false);
   ("notification_sound", PBool true)].

(** Every other name an instance answers to: what the dataclass decorator
    and [object] put on the class (CPython 3.11; other versions add or drop
    a few such names, none of them a field). *)
Definition class_attrs : list string :=
  ["__annotations__"; "__class__"; "__dataclass_fields__";
   "__dataclass_params__"; "__delattr__"; "__dict__"; "__dir__"; "__doc__";
   "__eq__"; "__format__"; "__ge__"; "__getattribute__"; "__getstate__";
   "__gt__"; "__hash__"; "__init__"; "__init_subclass__"; "__le__"; "__lt__";
   "__match_args__"; "__module__"; "__ne__"; "__new__"; "__reduce__";
   "__reduce_ex__"; "__repr__"; "__setattr__"; "__sizeof__"; "__str__";
   "__subclasshook__"; "__weakref__"].

(** An instance is its [__dict__]; the class is fixed. *)
Record t := mk { inst : pydict }.

(** [AppConfig()]: [__init__] stores every field, in declaration order. *)
Definition new (converted_audio : string) : t := mk (defaults converted_audio).

(** [hasattr(obj, name)] *)
Definition hasattr (obj : t) (name : string) : bool :=
  bool_decide (name ∈ keys (inst obj))
  || bool_decide (name ∈ field_names)
  || bool_decide (name ∈ class_attrs).

(** [getattr(obj, name)] for a field: the instance's value, else the class
    attribute that holds the default. *)
Definition getattr (converted_audio : string) (obj : t) (name : string)
    : option pyval :=
  match dict_get name (inst obj) with
  | Some v => Some v
  | None => dict_get name (defaults converted_audio)
  end.

(** [setattr(obj, name, value)] with a value read from JSON; [None] when it
    raises. [__dict__] accepts a dict and swaps the instance's whole
    dictionary, [__class__] accepts classes only, [__weakref__] is read-only;
    any other name is stored in the instance. *)
Definition setattr (obj : t) (name : string) (value : pyval) : option t :=
  if bool_decide (name = "__dict__") then
    match value with
    | PDict d => Some (mk d)
    | _ => None
    end
  else if bool_decide (name = "__class__") then None
  else if bool_decide (name = "__weakref__") then None
  else Some (mk (dict_set name value (inst obj))).

End AppConfig.

(** ** The settings file [~/.mp4tomp3_config.json] *)

(** The [json] module is not part of the program: a file that parses is held
    as the value [json.load] returns for it, and [json.dump] writes a
    document that loads back as the value dumped. *)
Inductive SettingsFile :=
  | Missing                  (* [os.path.exists] is false *)
  | Unreadable               (* [open] raises *)
  | Corrupt                  (* [json.load] raises *)
  | Document (data : pyval).

Module Settings.

(** [for key, value in data.items()]: the loop of [_load_settings]. An
    exception leaves the loop; the bare [except: pass] keeps what was set
    before it. *)
Fixpoint load_items (items : pydict) (config : AppConfig.t) : AppConfig.t :=
  match items with
  | [] => config
  | (key, value) :: rest =>
      if AppConfig.hasattr config key then
        match AppConfig.setattr config key value with
        | Some config' => load_items rest config'
        | None => config
        end
      else load_items rest config
  end.

(** [MainWindow._load_settings]; a document that is not an object has no
    [.items()], which raises inside the [try]. *)
Definition _load_settings (file : SettingsFile) (config : AppConfig.t)
    : AppConfig.t :=
  match file with
  | Document (PDict items) => load_items items config
  | _ => config
  end.

(** [MainWindow._save_settings]; [writable] tells whether [open(.., 'w')]
    succeeds. A failure is swallowed and the file stays as it was. *)
Definition _save_settings (writable : bool) (config : AppConfig.t)
    (file : SettingsFile) : SettingsFile :=
  if writable then Document (PDict (AppConfig.inst config)) else file.

End Settings.

(** ** [class MainWindow]: the task list *)

Module MainWindow.

(** The answer to a [QMessageBox.question]. *)
Inductive Reply := Yes | No.

Record t := mk {
  tasks : list ConversionTask;
  file_list : list string;      (* the [UserRole] data of the list's items *)
  progress_widgets : nat;       (* how many progress widgets are shown *)
  current_worker : option bool; (* [Some r]: a worker exists, [r] is [isRunning()] *)
  start_btn : bool;             (* whether each button is enabled *)
  pause_btn : bool;
  stop_btn : bool;
  add_files_btn : bool;
  add_folder_btn : bool;
  clear_list_btn : bool
}.

(** [MainWindow.__init__] and [_setup_ui]. *)
Definition new : t := mk [] [] 0 None true false false true true true.

(** A run is in progress. *)
Definition running (w : t) : bool :=
  match current_worker w with Some r => r | None => false end.

(** [ConversionTask.__init__(input_path)]; [fs] gives the size of every path
    that exists. *)
Definition ConversionTask_init (fs : gmap string N) (input_path : string)
    : option ConversionTask :=
  let file_size := match fs !! input_path with Some n => n | None => 0%N end in
  match with_suffix input_path ".mp3" with
  | Some out => Some (mkTask input_path out pending 0 "" None None file_size)
  | None => None
  end.

(** [_add_file_to_list]; [None] when the [ValueError] of the constructor
    leaves the slot. *)
Definition _add_file_to_list (fs : gmap string N) (file_path : string) (w : t)
    : option t :=
  if bool_decide (file_path ∈ file_list w) then Some w
  else
    match ConversionTask_init fs file_path with
    | Some task =>
        Some (mk (tasks w ++ [task]) (file_list w ++ [file_path])
                 (progress_widgets w) (current_worker w) (start_btn w)
                 (pause_btn w) (stop_btn w) (add_files_btn w)
                 (add_folder_btn w) (clear_list_btn w))
    | None => None
    end.

(** What a call of [_add_file_to_list] hands to its caller. The duplicate
    test ends in a bare [return] and the body has no [return] at its end, so
    the value is [None] on both paths; nothing is raised but the
    [ValueError] of the constructor. *)
Definition _add_file_to_list_result (fs : gmap string N) (file_path : string) (w : t)
    : CallResult :=
  if bool_decide (file_path ∈ file_list w) then Returns PNone
  else
    match ConversionTask_init fs file_path with
    | Some _ => Returns PNone
    | None => Raises "ValueError"
    end.

(** [for file in files: self._add_file_to_list(file)] *)
Fixpoint add_all (fs : gmap string N) (files : list string) (w : t) : option t :=
  match files with
  | [] => Some w
  | file :: files' =>
      match _add_file_to_list fs file w with
      | Some w' => add_all fs files' w'
      | None => None
      end
  end.

(** [DraggableListWidget.dropEvent] followed by [_on_files_dropped]; [files]
    are the dropped paths that exist and carry a video extension. The widget
    adds its own items before the signal reaches the window. *)
Definition dropEvent (fs : gmap string N) (files : list string) (w : t) : option t :=
  add_all fs files
    (mk (tasks w) (file_list w ++ files) (progress_widgets w) (current_worker w)
        (start_btn w) (pause_btn w) (stop_btn w) (add_files_btn w)
        (add_folder_btn w) (clear_list_btn w)).

(** [_clear_list] *)
Definition _clear_list (reply : Reply) (w : t) : t :=
  match reply with
  | Yes => mk [] [] 0 (current_worker w) (start_btn w) (pause_btn w) (stop_btn w)
              (add_files_btn w) (add_folder_btn w) (clear_list_btn w)
  | No => w
  end.

(** The two ways to reach [_clear_list]: the button, which emits [clicked]
    only while enabled, and the menu action "Clear List" (Ctrl+L), which the
    window never disables. *)
Definition clear_list_btn_clicked (reply : Reply) (w : t) : t :=
  if clear_list_btn w then _clear_list reply w else w.

Definition clear_action_triggered (reply : Reply) (w : t) : t :=
  _clear_list reply w.

(** The config dict of [_start_conversion]. *)
Definition worker_config (bitrate_combo : string)
    (preserve_metadata_cb extract_cover_cb : bool) : Config :=
  mkConfig (Some bitrate_combo) (Some preserve_metadata_cb)
           (Some extract_cover_cb) (Some false) (Some "-1.0").

(** [_start_conversion]; [makedirs_ok] tells whether
    [os.makedirs(output_dir)] succeeds, [None] is its exception leaving the
    slot. *)
Definition _start_conversion (makedirs_ok : bool) (output_dir format_lower : string)
    (w : t) : option t :=
  if bool_decide (length (tasks w) = 0%nat) then Some w
  else if negb makedirs_ok then None
  else
    let rename task :=
      set_output_path
        (path_join output_dir
           (PurePosixPath.stem (PurePosixPath.parse (input_path task))
            +:+ "." +:+ format_lower))
        task in
    Some (mk (map rename (tasks w)) (file_list w) (length (tasks w)) (Some true)
             false true true false false false).

(** [_on_conversion_finished] *)
Definition _on_conversion_finished (w : t) : t :=
  mk (tasks w) (file_list w) (progress_widgets w) (Some false)
     true false false true true true.

(** Every task's input path is an item of the list widget. *)
Definition tasks_listed (w : t) : Prop :=
  ∀ task, task ∈ tasks w → input_path task ∈ file_list w.

End MainWindow.

(** The command line with [flags] between the quality setting and the
    output path. *)
Definition cmd_with (br : option string) (task : ConversionTask)
    (flags : list string) : list string :=
  ["ffmpeg"; "-i"; input_path task; "-codec:a"; "libmp3lame";
   "-b:a"; get br "192k"; "-q:a"; "2"] ++ flags ++ [output_path task].

(** ** Vocabulary for runs of the worker *)

Module Run.
Import ConversionWorker.

(** The signal [e], if it names a task, names task [i]. *)
Definition about (i : nat) (e : Event) : Prop :=
  match e with
  | progress_updated j _ _ | task_completed j _ _ | conversion_started j => j = i
  | log_message _ _ | subprocess_run _ => True
  end.

(** Log lines and child processes. *)
Definition plain (e : Event) : Prop :=
  match e with
  | log_message _ _ | subprocess_run _ => True
  | _ => False
  end.

(** [e] is no progress signal of task [i]. *)
Definition not_progress_of (i : nat) (e : Event) : Prop :=
  match e with
  | progress_updated j _ _ => j ≠ i
  | _ => True
  end.

(** The percentages signalled for task [i], in order. *)
Fixpoint progress_of (i : nat) (evs : list Event) : list Z :=
  match evs with
  | [] => []
  | progress_updated j p _ :: evs' =>
      if bool_decide (j = i) then p :: progress_of i evs' else progress_of i evs'
  | _ :: evs' => progress_of i evs'
  end.

(** The signal [e], if it names a task, names one from position [i] on. *)
Definition from (i : nat) (e : Event) : Prop :=
  match e with
  | progress_updated j _ _ | task_completed j _ _ | conversion_started j => (i <= j)%nat
  | log_message _ _ | subprocess_run _ => True
  end.

(** The tasks announced by [conversion_started], in order. *)
Fixpoint started_of (evs : list Event) : list nat :=
  match evs with
  | [] => []
  | conversion_started j :: evs' => j :: started_of evs'
  | _ :: evs' => started_of evs'
  end.

(** The task meets nothing that makes it fail. *)
Definition succeeds (env : TaskEnv) : bool :=
  match makedirs_error env, ffmpeg_result env with
  | None, Exited returncode _ => returncode =? 0
  | _, _ => false
  end.

(** From [w] to [w'] the worker signalled [evs] and touched task [i] only;
    no task and no widget came or went. *)
Record frame (i : nat) (w w' : State) (evs : list Event) : Prop := mkFrame {
  frame_length : length (tasks w') = length (tasks w);
  frame_labels : length (status_labels w') = length (status_labels w);
  frame_other : ∀ j, j ≠ i → tasks w' !! j = tasks w !! j;
  frame_trace : trace w' = trace w ++ evs
}.

(** Sample environments: ffmpeg succeeds; ffmpeg exits with code 1; the
    output directory cannot be created. *)
Definition env_ok : TaskEnv := mkEnv None (Exited 0 "") None None None 10 20.
Definition env_exit_1 : TaskEnv :=
  mkEnv None (Exited 1 "codec error") None None None 10 20.
Definition env_no_dir : TaskEnv :=
  mkEnv (Some "[Errno 13] Permission denied: '/home/u/ConvertedAudio'")
        (Exited 0 "") None None None 10 20.
(** ffmpeg exits with code 1 and a message that is not plain ASCII. *)
Definition env_exit_text : TaskEnv :=
  mkEnv None (Exited 1 "vidéo.mp4: données invalides") None None None 10 20.
(** The user presses Stop during the task, after three progress ticks. *)
Definition env_stopped : TaskEnv := mkEnv None (Exited 0 "") None None (Some 3%nat) 10 20.

(** Two tasks; the user stops the run during the first. *)
Definition world_stop_first (i : nat) : TaskEnv :=
  if bool_decide (i = 0%nat) then env_stopped else env_ok.

(** Two tasks; ffmpeg fails on the first and the user stops the run during
    the second. *)
Definition world_stop_second (i : nat) : TaskEnv :=
  if bool_decide (i = 0%nat) then env_exit_1 else env_stopped.

(** Two tasks; ffmpeg fails on the first. *)
Definition world_fail_first (i : nat) : TaskEnv :=
  if bool_decide (i = 0%nat) then env_exit_1 else env_ok.

End Run.

(** ** Sample data *)

Definition sample_task_a : ConversionTask :=
  mkTask "/videos/a.mp4" "/home/u/ConvertedAudio/a.mp3" pending 0 "" None None 500000.
Definition sample_task_b : ConversionTask :=
  mkTask "/videos/b.mp4" "/home/u/ConvertedAudio/b.mp3" pending 0 "" None None 300000.

Definition sample_config : Config :=
  MainWindow.worker_config "192k" true false.

Definition sample_home : string := "/home/u/ConvertedAudio".

(** Settings changed in the dialog: every field differs from its default. *)
Definition sample_settings : AppConfig.t :=
  AppConfig.mk
    [("default_bitrate", PStr "320k");
     ("default_format", PStr "flac");
     ("output_directory", PStr "/mnt/music");
     ("preserve_metadata", PBool false);
     ("extract_cover", PBool false);
     ("theme", PStr "light");
     ("max_concurrent", PInt 4);
     ("auto_clear_list", PBool true);
     ("notification_sound", PBool false)].

(** A settings file edited by hand. *)
Definition sample_dunder_document : SettingsFile :=
  Document (PDict [("__dict__", PDict [("theme", PStr "light")])]).

Definition sample_fs : gmap string N :=
  {[ "/videos/a.mp4" := 500000%N; "/videos/b.mp4" := 300000%N ]}.

(** The window after adding [/videos/a.mp4]. *)
Definition sample_window : MainWindow.t :=
  MainWindow.mk [mkTask "/videos/a.mp4" "/videos/a.mp3" pending 0 "" None None 500000]
                ["/videos/a.mp4"] 0 None true false false true true true.

(** The same window once [_start_conversion] has run. *)
Definition sample_window_running : MainWindow.t :=
  MainWindow.mk [sample_task_a] ["/videos/a.mp4"] 1 (Some true)
                false true true false false false.

(** ** More vocabulary: what a run leaves behind *)

Module Outcome.
Import ConversionWorker Run.

(** The tasks whose end [task_completed] announces, in order. *)
Fixpoint completed_of (evs : list Event) : list nat :=
  match evs with
  | [] => []
  | task_completed j _ _ :: evs' => j :: completed_of evs'
  | _ :: evs' => completed_of evs'
  end.

(** The command lines of the child processes, in order. *)
Fixpoint spawned (evs : list Event) : list (list string) :=
  match evs with
  | [] => []
  | subprocess_run cmd :: evs' => cmd :: spawned evs'
  | _ :: evs' => spawned evs'
  end.

(** Two tasks that differ in [progress] at most. *)
Definition same_but_progress (t t' : ConversionTask) : Prop :=
  set_progress 0 t = set_progress 0 t'.

(** Task [t] is what [run] makes of [t0] when the pass for it ends with the
    verdict [(success, message)] in the environment [env]. *)
Definition processed (env : TaskEnv) (t0 t : ConversionTask)
    (success : bool) (message : string) : Prop :=
  input_path t = input_path t0
  ∧ output_path t = output_path t0
  ∧ file_size t = file_size t0
  ∧ status t = (if success then completed else failed)
  ∧ error_message t = (if success then "" else message)
  ∧ start_time t = Some (clock_start env)
  ∧ end_time t = Some (clock_end env).

(** [all(task.status in ['completed', 'failed'] for task in self.tasks)],
    the test of [_on_task_completed]. *)
Definition all_done (tasks : list ConversionTask) : bool :=
  forallb (fun task => terminal (status task)) tasks.

(** [successful] and [failed] as [_on_conversion_finished] counts them. *)
Definition successful (tasks : list ConversionTask) : nat :=
  length (filter (fun task => status task = completed) tasks).
Definition failures (tasks : list ConversionTask) : nat :=
  length (filter (fun task => status task = failed) tasks).

(** [sum(task.progress for task in self.tasks)] *)
Definition total_progress (tasks : list ConversionTask) : Z :=
  foldr (fun task acc => progress task + acc) 0 tasks.

(** [int(total_progress / len(self.tasks)) if self.tasks else 0], the value
    [_on_progress_updated] gives the overall bar. [int] cuts towards zero;
    the true division is exact enough for the cut as long as the total stays
    below 2^53. *)
Definition overall_progress (tasks : list ConversionTask) : Z :=
  match tasks with
  | [] => 0
  | _ => Z.quot (total_progress tasks) (Z.of_nat (length tasks))
  end.

End Outcome.

(** ** The states a window can be in *)

Module Session.

Definition with_tasks (l : list ConversionTask) (w : MainWindow.t) : MainWindow.t :=
  MainWindow.mk l (MainWindow.file_list w) (MainWindow.progress_widgets w)
    (MainWindow.current_worker w) (MainWindow.start_btn w) (MainWindow.pause_btn w)
    (MainWindow.stop_btn w) (MainWindow.add_files_btn w) (MainWindow.add_folder_btn w)
    (MainWindow.clear_list_btn w).

Definition with_file_list (l : list string) (w : MainWindow.t) : MainWindow.t :=
  MainWindow.mk (MainWindow.tasks w) l (MainWindow.progress_widgets w)
    (MainWindow.current_worker w) (MainWindow.start_btn w) (MainWindow.pause_btn w)
    (MainWindow.stop_btn w) (MainWindow.add_files_btn w) (MainWindow.add_folder_btn w)
    (MainWindow.clear_list_btn w).

(** The states the window reaches from start-up by the slots modelled
    here; the last rule is the worker writing into the shared task list,
    which leaves the input paths alone. *)
Inductive reachable : MainWindow.t → Prop :=
  | reach_new : reachable MainWindow.new
  | reach_add fs file_path w w' :
      reachable w → MainWindow._add_file_to_list fs file_path w = Some w' →
      reachable w'
  | reach_drop fs files w w' :
      reachable w → MainWindow.dropEvent fs files w = Some w' → reachable w'
  | reach_clear_button reply w :
      reachable w → reachable (MainWindow.clear_list_btn_clicked reply w)
  | reach_clear_action reply w :
      reachable w → reachable (MainWindow.clear_action_triggered reply w)
  | reach_start ok dir fmt w w' :
      reachable w → MainWindow._start_conversion ok dir fmt w = Some w' →
      reachable w'
  | reach_finished w :
      reachable w → reachable (MainWindow._on_conversion_finished w)
  | reach_worker l w :
      reachable w → input_path <$> l = input_path <$> MainWindow.tasks w →
      reachable (with_tasks l w).

End Session.

(** ** [class SettingsDialog] *)

(** [str.upper], [str.lower] and [str.title] on ASCII text; the dialog
    applies them to the defaults and to the items of its combo boxes. *)
Definition ascii_is_upper (c : Ascii.ascii) : bool :=
  (65 <=? Ascii.nat_of_ascii c)%nat && (Ascii.nat_of_ascii c <=? 90)%nat.
Definition ascii_is_lower (c : Ascii.ascii) : bool :=
  (97 <=? Ascii.nat_of_ascii c)%nat && (Ascii.nat_of_ascii c <=? 122)%nat.
Definition ascii_to_upper (c : Ascii.ascii) : Ascii.ascii :=
  if ascii_is_lower c then Ascii.ascii_of_nat (Ascii.nat_of_ascii c - 32) else c.
Definition ascii_to_lower (c : Ascii.ascii) : Ascii.ascii :=
  if ascii_is_upper c then Ascii.ascii_of_nat (Ascii.nat_of_ascii c + 32) else c.

Fixpoint py_upper (s : string) : string :=
  match s with
  | EmptyString => EmptyString
  | String c s' => String (ascii_to_upper c) (py_upper s')
  end.

Fixpoint py_lower (s : string) : string :=
  match s with
  | EmptyString => EmptyString
  | String c s' => String (ascii_to_lower c) (py_lower s')
  end.

(** A letter that follows a letter is lowered, any other letter raised. *)
Fixpoint py_title_from (after_letter : bool) (s : string) : string :=
  match s with
  | EmptyString => EmptyString
  | String c s' =>
      String (if after_letter then ascii_to_lower c else ascii_to_upper c)
             (py_title_from (ascii_is_upper c || ascii_is_lower c) s')
  end.
Definition py_title (s : string) : string := py_title_from false s.

Module SettingsDialog.

Definition format_items : list string := ["MP3"; "WAV"; "FLAC"; "AAC"; "OGG"].
Definition bitrate_items : list string := ["64k"; "128k"; "192k"; "256k"; "320k"].
Definition theme_items : list string := ["Dark"; "Light"; "System"].

(** The widgets; a combo box is the index of its current item. *)
Record t := mk {
  output_dir_edit : string;
  format_combo : nat;
  bitrate_combo : nat;
  max_concurrent_spin : Z;
  preserve_metadata_cb : bool;
  extract_cover_cb : bool;
  normalize_cb : bool;
  target_db_spin : pyfloat;
  theme_combo : nat;
  auto_clear_cb : bool;
  notification_sound_cb : bool
}.

Fixpoint index_of (text : string) (items : list string) : option nat :=
  match items with
  | [] => None
  | item :: items' =>
      if bool_decide (item = text) then Some 0%nat else S <$> index_of text items'
  end.

(** [QComboBox.setCurrentText] on a box that is not editable: the item with
    that text becomes current, and nothing happens when there is none. *)
Definition setCurrentText (items : list string) (text : string) (current : nat) : nat :=
  default current (index_of text items).

(** [QComboBox.currentText] *)
Definition currentText (items : list string) (current : nat) : string :=
  default "" (items !! current).

(** [QSpinBox.setValue] with [setRange(1, 8)]: the value is brought into the
    range. *)
Definition setValue (v : Z) : Z := Z.max 1 (Z.min 8 v).

(** The fields of [default_config = AppConfig()], by their types. *)
Definition field_str (config : AppConfig.t) (name : string) : string :=
  match dict_get name (AppConfig.inst config) with Some (PStr s) => s | _ => "" end.
Definition field_bool (config : AppConfig.t) (name : string) : bool :=
  match dict_get name (AppConfig.inst config) with Some (PBool b) => b | _ => false end.
Definition field_int (config : AppConfig.t) (name : string) : Z :=
  match dict_get name (AppConfig.inst config) with Some (PInt z) => z | _ => 0 end.

(** [_restore_defaults]; the check box and the spin box of the
    normalisation are not touched. *)
Definition _restore_defaults (converted_audio : string) (d : t) : t :=
  let default_config := AppConfig.new converted_audio in
  mk (field_str default_config "output_directory")
     (setCurrentText format_items (py_upper (field_str default_config "default_format"))
        (format_combo d))
     (setCurrentText bitrate_items (field_str default_config "default_bitrate")
        (bitrate_combo d))
     (setValue (field_int default_config "max_concurrent"))
     (field_bool default_config "preserve_metadata")
     (field_bool default_config "extract_cover")
     (normalize_cb d)
     (target_db_spin d)
     (setCurrentText theme_items (py_title (field_str default_config "theme"))
        (theme_combo d))
     (field_bool default_config "auto_clear_list")
     (field_bool default_config "notification_sound").

(** [self.config.name = value] *)
Definition assign (name : string) (value : pyval) (config : AppConfig.t) : AppConfig.t :=
  AppConfig.mk (dict_set name value (AppConfig.inst config)).

(** [_save_settings] *)
Definition _save_settings (d : t) (config : AppConfig.t) : AppConfig.t :=
  let config := assign "output_directory" (PStr (output_dir_edit d)) config in
  let config := assign "default_format"
                  (PStr (py_lower (currentText format_items (format_combo d)))) config in
  let config := assign "default_bitrate"
                  (PStr (currentText bitrate_items (bitrate_combo d))) config in
  let config := assign "max_concurrent" (PInt (max_concurrent_spin d)) config in
  let config := assign "preserve_metadata" (PBool (preserve_metadata_cb d)) config in
  let config := assign "extract_cover" (PBool (extract_cover_cb d)) config in
  let config := assign "theme"
                  (PStr (py_lower (currentText theme_items (theme_combo d)))) config in
  let config := assign "auto_clear_list" (PBool (auto_clear_cb d)) config in
  assign "notification_sound" (PBool (notification_sound_cb d)) config.

End SettingsDialog.

(** ** More sample data *)

(** A dialog in which everything has been changed. *)
Definition sample_dialog : SettingsDialog.t :=
  SettingsDialog.mk "/mnt/music" 2 4 8 false false true "-3.0" 1 true false.

(** Two files of the same stem in two folders, added to the window. *)
Definition sample_twins : MainWindow.t :=
  MainWindow.mk
    [mkTask "/holiday/clip.mp4" "/holiday/clip.mp3" pending 0 "" None None 100;
     mkTask "/work/clip.avi" "/work/clip.mp3" pending 0 "" None None 200]
    ["/holiday/clip.mp4"; "/work/clip.avi"] 0 None true false false true true true.

(** Closes [x ∉ l] for a literal list of strings without [x]. *)
Ltac not_in_list :=
  rewrite ?not_elem_of_cons; repeat split; (discriminate || apply not_elem_of_nil).

(** * Properties *)

(** ** The ffmpeg command line *)

Section Command.

Variables (task : ConversionTask) (br db : option string) (ec : option bool).

Lemma ffmpeg_cmd_plain :
  ffmpeg_cmd (mkConfig br (Some false) ec (Some false) db) task = cmd_with br task ["-y"].
Proof. reflexivity. Qed.

Lemma ffmpeg_cmd_metadata :
  ffmpeg_cmd (mkConfig br (Some true) ec (Some false) db) task
  = cmd_with br task ["-y"; "-map_metadata"; "0"; "-id3v2_version"; "3"].
Proof. reflexivity. Qed.

Lemma ffmpeg_cmd_normalize :
  ffmpeg_cmd (mkConfig br (Some false) ec (Some true) db) task
  = cmd_with br task ["-af"; "volume=" +:+ get db "-1.0" +:+ "dB"; "-y"].
Proof. reflexivity. Qed.

End Command.

(** The output path is always the last argument. *)
Lemma ffmpeg_cmd_last config task :
  last (ffmpeg_cmd config task) = Some (output_path task).
Proof.
  destruct config as [b [[|]|] e [[|]|] d]; reflexivity.
Qed.

(** C1. With [preserve_metadata] and [normalize] both on, the two
    [insert(-2, ..)] calls land between ['-id3v2_version'] and its value:
    the flag is followed by ['-af'], and ['3'] follows the volume filter. The
    pairing the claim asks for every combination fails for this one. *)
Theorem C1_metadata_and_normalize_split_id3v2_version
    (task : ConversionTask) (br db : option string) (ec : option bool) :
  ffmpeg_cmd (mkConfig br (Some true) ec (Some true) db) task
  = ["ffmpeg"; "-i"; input_path task; "-codec:a"; "libmp3lame";
     "-b:a"; get br "192k"; "-q:a"; "2"; "-y";
     "-map_metadata"; "0";
     "-id3v2_version"; "-af"; "volume=" +:+ get db "-1.0" +:+ "dB"; "3";
     output_path task].
Proof. reflexivity. Qed.

Example ffmpeg_cmd_both_flags_unpaired :
  let cmd := ffmpeg_cmd (mkConfig (Some "192k") (Some true) (Some false)
                                  (Some true) (Some "-1.0"))
                        (mkTask "/in/a.mp4" "/out/a.mp3" pending 0 "" None None 0) in
  followed_by "-id3v2_version" "3" cmd = false
  /\ followed_by "-id3v2_version" "-af" cmd = true
  /\ followed_by "-map_metadata" "0" cmd = true
  /\ followed_by "-af" "volume=-1.0dB" cmd = true.
Proof. vm_compute. auto. Qed.

(** ** Settings *)

Lemma dict_get_set_ne k k' v d : k ≠ k' → dict_get k' (dict_set k v d) = dict_get k' d.
Proof.
  intros Hne. induction d as [|[k0 v0] d IH]; simpl.
  - by rewrite bool_decide_eq_false_2.
  - destruct (bool_decide_reflect (k0 = k)) as [->|Hk0]; simpl.
    + by rewrite !bool_decide_eq_false_2.
    + by rewrite IH.
Qed.

Lemma dict_get_set_eq k v d : dict_get k (dict_set k v d) = Some v.
Proof.
  induction d as [|[k0 v0] d IH]; simpl.
  - by rewrite bool_decide_eq_true_2.
  - destruct (bool_decide_reflect (k0 = k)) as [->|Hk0]; simpl.
    + by rewrite bool_decide_eq_true_2.
    + by rewrite bool_decide_eq_false_2.
Qed.

(** A file that is missing, cannot be opened or does not parse leaves the
    configuration as it is; so does a document that is not an object. *)
Lemma load_settings_no_document file config :
  (∀ items, file ≠ Document (PDict items)) →
  Settings._load_settings file config = config.
Proof.
  intros Hfile. destruct file as [| | |data]; try done.
  destruct data; try done. by destruct (Hfile d).
Qed.

(** A key that names no attribute of the object is skipped. *)
Lemma load_items_skips_unknown key value rest config :
  AppConfig.hasattr config key = false →
  Settings.load_items ((key, value) :: rest) config = Settings.load_items rest config.
Proof. intros H. simpl. by rewrite H. Qed.

(** Without a [__dict__] key in the document, a name the document does not
    mention keeps the value it had in the instance. *)
Lemma load_items_keeps_absent items config name :
  "__dict__" ∉ keys items → name ∉ keys items →
  dict_get name (AppConfig.inst (Settings.load_items items config))
  = dict_get name (AppConfig.inst config).
Proof.
  revert config. induction items as [|[key value] rest IH]; intros config Hd Hn; [done|].
  simpl in Hd, Hn. apply not_elem_of_cons in Hd as [Hd1 Hd2].
  apply not_elem_of_cons in Hn as [Hn1 Hn2]. simpl.
  destruct (AppConfig.hasattr config key); [|by apply IH].
  unfold AppConfig.setattr.
  rewrite (bool_decide_eq_false_2 (key = "__dict__")) by congruence.
  repeat case_bool_decide; try done.
  rewrite IH by done. simpl. apply dict_get_set_ne. congruence.
Qed.

(** C8. What [_save_settings] writes for a configuration that holds its nine
    fields, [_load_settings] reads back into a fresh [AppConfig()] as the same
    configuration: every field has the value that was saved. *)
Theorem C8_save_then_load_roundtrip
    (converted_audio : string) (config : AppConfig.t) (file : SettingsFile) :
  keys (AppConfig.inst config) = AppConfig.field_names →
  Settings._load_settings (Settings._save_settings true config file)
                          (AppConfig.new converted_audio) = config.
Proof.
  destruct config as [d]. unfold keys. simpl. intros H.
  do 9 (destruct d as [|[? ?] d]; [discriminate H|]).
  destruct d; [|discriminate H].
  simpl in H. injection H as -> -> -> -> -> -> -> -> ->.
  reflexivity.
Qed.

Lemma C8_save_then_load_roundtrip_witness :
  keys (AppConfig.inst sample_settings) = AppConfig.field_names
  ∧ Settings._load_settings (Settings._save_settings true sample_settings Corrupt)
                            (AppConfig.new sample_home) = sample_settings.
Proof.
  split; [reflexivity|].
  apply (C8_save_then_load_roundtrip sample_home sample_settings Corrupt).
  reflexivity.
Defined.

(** C9. [hasattr] lets through more than the fields. The key [__dict__] names
    no field, yet [setattr] takes its value as the instance's new dictionary:
    after loading, [theme] is ["light"] although the document has no [theme]
    key, where the default is ["dark"]. *)
Theorem C9_dunder_dict_key_rebinds_fields :
  let config := Settings._load_settings sample_dunder_document
                                        (AppConfig.new sample_home) in
("__dict__" ∉ AppConfig.field_names)
  ∧ AppConfig.hasattr (AppConfig.new sample_home) "__dict__" = true
  ∧ AppConfig.getattr sample_home (AppConfig.new sample_home) "theme" = Some (PStr "dark")
  ∧ AppConfig.getattr sample_home config "theme" = Some (PStr "light")
  ∧ AppConfig.inst config = [("theme", PStr "light")].
Proof.
  repeat split; try reflexivity.
  unfold AppConfig.field_names. not_in_list.
Qed.

(** ** The task list of the window *)

Lemma add_file_tasks_listed fs p w w' :
  MainWindow.tasks_listed w → MainWindow._add_file_to_list fs p w = Some w' →
  MainWindow.tasks_listed w'.
Proof.
  unfold MainWindow._add_file_to_list, MainWindow.ConversionTask_init.
  intros Hw H. case_bool_decide; [by simplify_eq|].
  destruct (with_suffix p ".mp3") as [out|]; [|done]. simplify_eq.
  intros task. simpl. rewrite !elem_of_app, !list_elem_of_singleton.
  intros [Hin| ->]; [left; by apply Hw | by right].
Qed.

Lemma add_all_tasks_listed fs files w w' :
  MainWindow.tasks_listed w → MainWindow.add_all fs files w = Some w' →
  MainWindow.tasks_listed w'.
Proof.
  revert w. induction files as [|file files IH]; intros w Hw H; simpl in H.
  - by simplify_eq.
  - destruct (MainWindow._add_file_to_list fs file w) as [w1|] eqn:E; [|done].
    eapply IH; [|done]. by eapply add_file_tasks_listed.
Qed.

(** [tasks_listed] holds at start-up and every operation on the window
    keeps it. *)
Lemma tasks_listed_invariant :
  MainWindow.tasks_listed MainWindow.new
  ∧ (∀ fs p w w', MainWindow.tasks_listed w →
       MainWindow._add_file_to_list fs p w = Some w' → MainWindow.tasks_listed w')
  ∧ (∀ fs files w w', MainWindow.tasks_listed w →
       MainWindow.dropEvent fs files w = Some w' → MainWindow.tasks_listed w')
  ∧ (∀ reply w, MainWindow.tasks_listed w →
       MainWindow.tasks_listed (MainWindow._clear_list reply w))
  ∧ (∀ ok dir fmt w w', MainWindow.tasks_listed w →
       MainWindow._start_conversion ok dir fmt w = Some w' → MainWindow.tasks_listed w')
  ∧ (∀ w, MainWindow.tasks_listed w →
       MainWindow.tasks_listed (MainWindow._on_conversion_finished w)).
Proof.
  repeat split.
  - intros task H. by apply elem_of_nil in H.
  - apply add_file_tasks_listed.
  - intros fs files w w' Hw H. unfold MainWindow.dropEvent in H.
    eapply add_all_tasks_listed; [|done].
    intros task Hin. simpl in *. apply elem_of_app. left. by apply Hw.
  - intros [|] w Hw; [|done]. intros task H. by apply elem_of_nil in H.
  - intros ok dir fmt w w' Hw H. unfold MainWindow._start_conversion in H.
    case_bool_decide; [by simplify_eq|].
    destruct ok; [|done]. simpl in H. simplify_eq.
    intros task. simpl. rewrite list_elem_of_fmap.
    intros (task0 & -> & Hin). simpl. by apply Hw.
  - intros w Hw task Hin. by apply Hw.
Qed.

(** C5. The menu action "Clear List" reaches [_clear_list] while a run is in
    progress and empties the task list the worker is iterating over; only
    the button is disabled for the length of the run. *)
Theorem C5_clear_action_empties_tasks_during_run :
  MainWindow._start_conversion true sample_home "mp3" sample_window
    = Some sample_window_running
  ∧ MainWindow.running sample_window_running = true
  ∧ MainWindow.tasks (MainWindow.clear_action_triggered MainWindow.Yes
                        sample_window_running) = []
  ∧ MainWindow.clear_list_btn_clicked MainWindow.Yes sample_window_running
    = sample_window_running.
Proof. repeat split; vm_compute; reflexivity. Qed.

(** [_clear_list] never looks at the worker. *)
Lemma clear_list_ignores_run w :
  MainWindow.tasks (MainWindow._clear_list MainWindow.Yes w) = []
  ∧ MainWindow.running (MainWindow._clear_list MainWindow.Yes w) = MainWindow.running w.
Proof. done. Qed.

(** While the worker runs after [_start_conversion], the button path is
    closed. *)
Lemma clear_button_disabled_during_run dir fmt w w' reply :
  MainWindow.tasks w ≠ [] →
  MainWindow._start_conversion true dir fmt w = Some w' →
  MainWindow.running w' = true ∧ MainWindow.clear_list_btn_clicked reply w' = w'.
Proof.
  unfold MainWindow._start_conversion. intros Hne H.
  case_bool_decide as Hlen; [by destruct (MainWindow.tasks w)|].
  simpl in H. by simplify_eq.
Qed.

(** C6, as the claim has it, fails: a path that does not exist is added all
    the same, as a task of size 0. *)
Lemma C6_counterexample :
  sample_fs !! "/videos/missing.mp4" = None
  ∧ MainWindow.tasks <$> MainWindow._add_file_to_list sample_fs "/videos/missing.mp4"
                           MainWindow.new
    = Some [mkTask "/videos/missing.mp4" "/videos/missing.mp3" pending 0 ""
                   None None 0]
  ∧ MainWindow.tasks <$> MainWindow._add_file_to_list sample_fs "/videos/missing.mp4"
                           MainWindow.new
    ≠ Some (MainWindow.tasks MainWindow.new).
Proof. repeat split; vm_compute; congruence. Qed.

Lemma with_suffix_mp3 p :
  PurePosixPath.name (PurePosixPath.parse p) ≠ "" →
  is_Some (with_suffix p ".mp3").
Proof.
  intros Hname. unfold with_suffix, PurePosixPath.with_suffix.
  change (has_char "/" ".mp3") with false. cbv iota.
  change ((negb (bool_decide (".mp3" = "")) && negb (String.prefix "." ".mp3"))
          || bool_decide (".mp3" = ".")) with false. cbv iota.
  rewrite bool_decide_eq_false_2 by done. by eexists.
Qed.

(** C6, amended. Adding a path that is not in the list yet and whose last
    component is a name appends one task for it and reports nothing, whether
    the path exists or not; the task's [file_size] is the size of the file
    when the path exists and 0 when it does not. *)
Theorem C6_add_records_size_or_zero
    (fs : gmap string N) (file_path : string) (w : MainWindow.t) :
  file_path ∉ MainWindow.file_list w →
  PurePosixPath.name (PurePosixPath.parse file_path) ≠ "" →
  ∃ task w',
    MainWindow._add_file_to_list fs file_path w = Some w'
    ∧ MainWindow._add_file_to_list_result fs file_path w = Returns PNone
    ∧ MainWindow.tasks w' = MainWindow.tasks w ++ [task]
    ∧ MainWindow.file_list w' = MainWindow.file_list w ++ [file_path]
    ∧ input_path task = file_path
    ∧ with_suffix file_path ".mp3" = Some (output_path task)
    ∧ status task = pending
    ∧ file_size task = default 0%N (fs !! file_path).
Proof.
  intros Hnew Hname. destruct (with_suffix_mp3 file_path Hname) as [out Hout].
  unfold MainWindow._add_file_to_list_result, MainWindow._add_file_to_list,
    MainWindow.ConversionTask_init.
  rewrite bool_decide_eq_false_2 by done. rewrite Hout.
  eexists _, _. by repeat split.
Qed.

Lemma C6_add_records_size_or_zero_witness :
  ∃ task w',
    MainWindow._add_file_to_list sample_fs "/videos/b.mp4" sample_window = Some w'
    ∧ MainWindow._add_file_to_list_result sample_fs "/videos/b.mp4" sample_window
      = Returns PNone
    ∧ MainWindow.tasks w' = MainWindow.tasks sample_window ++ [task]
    ∧ MainWindow.file_list w' = MainWindow.file_list sample_window ++ ["/videos/b.mp4"]
    ∧ input_path task = "/videos/b.mp4"
    ∧ with_suffix "/videos/b.mp4" ".mp3" = Some (output_path task)
    ∧ status task = pending
    ∧ file_size task = default 0%N (sample_fs !! "/videos/b.mp4").
Proof.
  apply (C6_add_records_size_or_zero sample_fs "/videos/b.mp4").
  - unfold sample_window. simpl. not_in_list.
  - vm_compute. discriminate.
Defined.

(** C7, as the claim has it, fails: adding the path of a task that is
    already there returns [None], which is what adding a new path returns
    too; the caller is told of no error. *)
Lemma C7_counterexample :
  "/videos/a.mp4" ∈ input_path <$> MainWindow.tasks sample_window
  ∧ MainWindow._add_file_to_list_result sample_fs "/videos/a.mp4" sample_window
    = Returns PNone
  ∧ reports_error
      (MainWindow._add_file_to_list_result sample_fs "/videos/a.mp4" sample_window)
    = false
  ∧ ("/videos/b.mp4" ∉ input_path <$> MainWindow.tasks sample_window)
  ∧ MainWindow._add_file_to_list_result sample_fs "/videos/b.mp4" sample_window
    = MainWindow._add_file_to_list_result sample_fs "/videos/a.mp4" sample_window.
Proof.
  split_and!; try reflexivity.
  - apply list_elem_of_singleton. reflexivity.
  - simpl. not_in_list.
Qed.

(** C7, amended. Adding a path that some task already has changes nothing
    and says nothing: the function returns [None] before it touches the list
    widget or the task list, and raises no exception. *)
Theorem C7_add_duplicate_is_noop
    (fs : gmap string N) (file_path : string) (w : MainWindow.t) :
  MainWindow.tasks_listed w →
  file_path ∈ input_path <$> MainWindow.tasks w →
  MainWindow._add_file_to_list fs file_path w = Some w
  ∧ MainWindow._add_file_to_list_result fs file_path w = Returns PNone.
Proof.
  intros Hw Hin. apply list_elem_of_fmap in Hin as (task & -> & Hin).
  unfold MainWindow._add_file_to_list_result, MainWindow._add_file_to_list.
  rewrite bool_decide_eq_true_2; [done|]. by apply Hw.
Qed.

Lemma C7_add_duplicate_is_noop_witness :
  MainWindow._add_file_to_list sample_fs "/videos/a.mp4" sample_window
  = Some sample_window
  ∧ MainWindow._add_file_to_list_result sample_fs "/videos/a.mp4" sample_window
    = Returns PNone.
Proof.
  apply (C7_add_duplicate_is_noop sample_fs "/videos/a.mp4" sample_window).
  - intros task Hin. apply list_elem_of_singleton in Hin as ->. simpl.
    apply list_elem_of_singleton. reflexivity.
  - simpl. apply list_elem_of_singleton. reflexivity.
Defined.

(** ** Runs of the worker *)

Section Runs.
Import ConversionWorker Run.

#[local] Arguments emit : simpl never.
#[local] Arguments land_stop : simpl never.
#[local] Arguments land_stop_end : simpl never.
#[local] Arguments run_task : simpl never.
#[local] Arguments _convert_single : simpl never.

Variable HAS_MUTAGEN : bool.
Variable config : Config.

Lemma frame_refl i w : frame i w w [].
Proof. split; [done..|]. by rewrite app_nil_r. Qed.

Lemma frame_trans i w1 w2 w3 evs1 evs2 :
  frame i w1 w2 evs1 → frame i w2 w3 evs2 → frame i w1 w3 (evs1 ++ evs2).
Proof.
  intros [L1 W1 O1 T1] [L2 W2 O2 T2]. split.
  - congruence.
  - congruence.
  - intros j Hj. rewrite O2, O1; done.
  - by rewrite T2, T1, app_assoc.
Qed.

Lemma frame_update_task i f w : frame i w (update_task i f w) [].
Proof.
  split; simpl.
  - apply length_alter.
  - done.
  - intros j Hj. by apply list_lookup_alter_ne.
  - by rewrite app_nil_r.
Qed.

Lemma frame_record i e w : frame i w (record e w) [e].
Proof. by split. Qed.

Lemma frame_set_label i j l w : frame i w (set_label j l w) [].
Proof.
  split; simpl; [done|apply length_insert|done|by rewrite app_nil_r].
Qed.

Lemma frame_deliver i e w : about i e → frame i w (deliver e w) [].
Proof.
  destruct e as [j p c|j ok m|j| |]; simpl; intros Hi; subst;
    try apply frame_refl.
  - unfold _on_progress_updated. case_bool_decide; [|apply frame_refl].
    destruct (p =? 100).
    + eapply (frame_trans _ _ _ _ [] []); [apply frame_update_task|apply frame_set_label].
    + apply frame_update_task.
  - unfold _on_task_completed. case_bool_decide; [apply frame_set_label|apply frame_refl].
  - unfold _on_conversion_started. case_bool_decide; [apply frame_set_label|apply frame_refl].
Qed.

Lemma frame_emit i e w : about i e → frame i w (emit e w) [e].
Proof.
  intros Hi. eapply (frame_trans _ _ _ _ [e] []);
    [apply frame_record | by apply frame_deliver].
Qed.

Lemma frame_stop i w : frame i w (stop w) [].
Proof. split; [done..|]. simpl. by rewrite app_nil_r. Qed.

Lemma frame_land_stop i env reads w : frame i w (land_stop env reads w) [].
Proof.
  unfold land_stop. destruct (stop_request env); [|apply frame_refl].
  case_bool_decide; [apply frame_stop|apply frame_refl].
Qed.

Lemma frame_land_stop_end i env w : frame i w (land_stop_end env w) [].
Proof.
  unfold land_stop_end. destruct (stop_request env); [apply frame_stop|apply frame_refl].
Qed.

(** The flag is touched by [stop] alone. *)
Lemma is_running_update_task i f w : is_running (update_task i f w) = is_running w.
Proof. done. Qed.

Lemma is_running_deliver e w : is_running (deliver e w) = is_running w.
Proof.
  destruct e as [j p c|j ok m|j| |]; simpl; try done.
  - unfold _on_progress_updated. case_bool_decide; [|done]. by destruct (p =? 100).
  - unfold _on_task_completed. by case_bool_decide.
  - unfold _on_conversion_started. by case_bool_decide.
Qed.

Lemma is_running_emit e w : is_running (emit e w) = is_running w.
Proof. unfold emit. by rewrite is_running_deliver. Qed.

Lemma land_stop_none env reads w :
  stop_request env = None → land_stop env reads w = w.
Proof. unfold land_stop. by intros ->. Qed.

Lemma land_stop_end_none env w :
  stop_request env = None → land_stop_end env w = w.
Proof. unfold land_stop_end. by intros ->. Qed.

Lemma land_stop_end_some env j w :
  stop_request env = Some j → is_running (land_stop_end env w) = false.
Proof. unfold land_stop_end. by intros ->. Qed.

(** The progress loop signals a prefix of the range for task [i], all of it
    when nobody stops the worker. *)
Lemma progress_loop_spec i env ps reads w :
  ∃ qs,
    frame i w (progress_loop i env reads ps w).2
          ((λ p, progress_updated i p 0) <$> qs)
    ∧ qs `prefix_of` ps
    ∧ (stop_request env = None →
         is_running (progress_loop i env reads ps w).2 = is_running w)
    ∧ (stop_request env = None → is_running w = true →
         (progress_loop i env reads ps w).1 = true ∧ qs = ps).
Proof.
  revert reads w. induction ps as [|p ps IH]; intros reads w; simpl.
  - exists []. split; [apply frame_refl|]. by split_and!.
  - destruct (is_running (land_stop env reads w)) eqn:Hrun; simpl.
    + destruct (IH (S reads) (emit (progress_updated i p 0) (land_stop env reads w)))
        as (qs & Hf & Hpre & Hkeep & Hall).
      exists (p :: qs). split_and!.
      * eapply (frame_trans _ _ _ _ [] (_ :: _)); [apply frame_land_stop|].
        eapply (frame_trans _ _ _ _ [_] _); [by apply frame_emit|done].
      * by apply prefix_cons.
      * intros Hnone. rewrite Hkeep, is_running_emit by done.
        by rewrite land_stop_none.
      * intros Hnone Hw. rewrite land_stop_none in Hall |- * by done.
        rewrite is_running_emit in Hall. by destruct (Hall Hnone Hw) as [-> ->].
    + exists []. split_and!.
      * apply frame_land_stop.
      * apply prefix_nil.
      * intros Hnone. by rewrite land_stop_none.
      * intros Hnone Hw. rewrite land_stop_none in Hrun by done. congruence.
Qed.

Lemma extract_cover_art_spec i env video audio w :
  ∃ evs, frame i w (_extract_cover_art env video audio w) evs
         ∧ Forall plain evs
         ∧ is_running (_extract_cover_art env video audio w) = is_running w.
Proof.
  unfold _extract_cover_art. destruct (cover_art_error env) as [e|].
  - eexists [_; _]. split; [|split].
    + eapply (frame_trans _ _ _ _ [_] [_]); [apply frame_record|by apply frame_emit].
    + by repeat constructor.
    + by rewrite is_running_emit.
  - eexists [_]. split; [apply frame_record|]. split; [by repeat constructor|done].
Qed.

Lemma preserve_metadata_spec i env video audio w :
  ∃ evs, frame i w (_preserve_metadata HAS_MUTAGEN env video audio w) evs
         ∧ Forall plain evs
         ∧ is_running (_preserve_metadata HAS_MUTAGEN env video audio w) = is_running w.
Proof.
  unfold _preserve_metadata. destruct HAS_MUTAGEN; simpl.
  - destruct (metadata_error env) as [e|].
    + eexists [_]. split; [by apply frame_emit|]. split; [by repeat constructor|].
      by rewrite is_running_emit.
    + exists []. split; [apply frame_refl|]. by split.
  - exists []. split; [apply frame_refl|]. by split.
Qed.

(** [_convert_single] signals a log line, then a prefix of the progress
    range, then spawns what it spawns; it touches task [i] only. When nobody
    stops the worker its verdict is [succeeds env], and unless [os.makedirs]
    fails the whole range is signalled before ffmpeg is spawned. *)
Lemma convert_single_spec i task env w :
  ∃ head qs tail,
    frame i w (_convert_single HAS_MUTAGEN config i task env w).2
          (head ++ ((λ p, progress_updated i p 0) <$> qs) ++ tail)
    ∧ Forall plain head ∧ Forall plain tail
    ∧ qs `prefix_of` progress_range
    ∧ (stop_request env = None →
         is_running (_convert_single HAS_MUTAGEN config i task env w).2 = is_running w)
    ∧ (stop_request env = None → is_running w = true →
         (_convert_single HAS_MUTAGEN config i task env w).1.1 = succeeds env
         ∧ (makedirs_error env = None →
              qs = progress_range
              ∧ ∃ tail', tail = subprocess_run (ffmpeg_cmd config task) :: tail')).
Proof.
  unfold _convert_single, succeeds.
  destruct (makedirs_error env) as [e|].
  { exists [], [], []. simpl. split; [apply frame_refl|].
    split_and!; try done. apply prefix_nil. }
  set (line := log_message ("Converting: " +:+ basename (input_path task)) "info").
  set (w1 := emit line w).
  assert (frame i w w1 [line]) as Hf1 by (by apply frame_emit).
  assert (is_running w1 = is_running w) as Hr1 by apply is_running_emit.
  destruct (progress_loop_spec i env progress_range 0 w1) as (qs & Hf2 & Hpre & Hkeep & Hall).
  destruct (progress_loop i env 0 progress_range w1) as [fin w2]. simpl in Hf2, Hkeep, Hall.
  assert (stop_request env = None → is_running w = true → fin = true ∧ qs = progress_range)
    as Hall'.
  { intros Hnone Hw. apply Hall; [done|congruence]. }
  destruct fin; cbn [negb fst snd].
  2:{ exists [line], qs, []. rewrite app_nil_r. split; [by eapply frame_trans|].
      split_and!; [by repeat constructor|done|done|by auto|].
      intros Hnone Hw. by destruct (Hall' Hnone Hw). }
  set (spawn := subprocess_run (ffmpeg_cmd config task)).
  set (w3 := record spawn w2).
  assert (frame i w w3 ([line] ++ ((λ p, progress_updated i p 0) <$> qs) ++ [spawn])) as Hf3.
  { eapply frame_trans; [done|]. eapply frame_trans; [done|apply frame_record]. }
  assert (stop_request env = None → is_running w3 = is_running w) as Hr3.
  { intros Hnone. simpl. by rewrite Hkeep. }
  assert (Forall plain [line]) as Hline by (by repeat constructor).
  assert (Forall plain [spawn]) as Hspawn by (by repeat constructor).
  destruct (ffmpeg_result env) as [e|returncode stderr]; cbn [fst snd].
  { exists [line], qs, [spawn]. split_and!; try done.
    intros Hnone Hw. split; [done|]. intros _. split; [by apply Hall'|by exists []]. }
  destruct (returncode =? 0); cbn [fst snd].
  2:{ exists [line], qs, [spawn]. split_and!; try done.
      intros Hnone Hw. split; [done|]. intros _. split; [by apply Hall'|by exists []]. }
  set (w4 := if get (extract_cover config) true && HAS_MUTAGEN
             then _extract_cover_art env (input_path task) (output_path task) w3
             else w3).
  assert (∃ evs, frame i w3 w4 evs ∧ Forall plain evs ∧ is_running w4 = is_running w3)
    as (evs4 & Hf4 & Hp4 & Hr4).
  { subst w4. destruct (get (extract_cover config) true && HAS_MUTAGEN).
    - apply extract_cover_art_spec.
    - exists []. split; [apply frame_refl|]. by split. }
  set (w5 := if get (preserve_metadata config) true && HAS_MUTAGEN
             then _preserve_metadata HAS_MUTAGEN env (input_path task) (output_path task) w4
             else w4).
  assert (∃ evs, frame i w4 w5 evs ∧ Forall plain evs ∧ is_running w5 = is_running w4)
    as (evs5 & Hf5 & Hp5 & Hr5).
  { subst w5. destruct (get (preserve_metadata config) true && HAS_MUTAGEN).
    - apply preserve_metadata_spec.
    - exists []. split; [apply frame_refl|]. by split. }
  exists [line], qs, (spawn :: evs4 ++ evs5).
  split.
  { pose proof (frame_trans _ _ _ _ _ _ Hf3 (frame_trans _ _ _ _ _ _ Hf4 Hf5)) as Hf.
    by rewrite <- !app_assoc in Hf. }
  split_and!; try done.
  - constructor; [done|]. by apply Forall_app.
  - intros Hnone. rewrite Hr5, Hr4. by apply Hr3.
  - intros Hnone Hw. split; [done|]. intros _. split; [by apply Hall'|by eexists].
Qed.

Lemma tasks_emit_task_completed i success message w :
  tasks (emit (task_completed i success message) w) = tasks w.
Proof. unfold emit. simpl. unfold _on_task_completed. by case_bool_decide. Qed.

Lemma tasks_land_stop_end env w : tasks (land_stop_end env w) = tasks w.
Proof. unfold land_stop_end. by destruct (stop_request env). Qed.

(** One pass of the loop body: task [i] is announced, ends [completed] or
    [failed], and its end is announced; no other task is touched. *)
Lemma run_task_spec i task env w :
  (i < length (tasks w))%nat →
  ∃ head qs tail success message t,
    frame i w (run_task HAS_MUTAGEN config i task env w)
          (conversion_started i
             :: head ++ ((λ p, progress_updated i p 0) <$> qs) ++ tail
             ++ [task_completed i success message])
    ∧ Forall plain head ∧ Forall plain tail
    ∧ qs `prefix_of` progress_range
    ∧ tasks (run_task HAS_MUTAGEN config i task env w) !! i = Some t
    ∧ status t = (if success then completed else failed)
    ∧ (stop_request env = None →
         is_running (run_task HAS_MUTAGEN config i task env w) = is_running w)
    ∧ (is_Some (stop_request env) →
         is_running (run_task HAS_MUTAGEN config i task env w) = false)
    ∧ (stop_request env = None → is_running w = true →
         success = succeeds env
         ∧ (makedirs_error env = None →
              qs = progress_range
              ∧ ∃ tail', tail = subprocess_run (ffmpeg_cmd config task) :: tail')).
Proof.
  intros Hi. unfold run_task.
  set (w1 := update_task i (set_start_time (clock_start env))
               (update_task i (set_status converting) (emit (conversion_started i) w))).
  assert (frame i w w1 [conversion_started i]) as Hf1.
  { eapply (frame_trans _ _ _ _ [_] []); [by apply frame_emit|].
    eapply (frame_trans _ _ _ _ [] []); apply frame_update_task. }
  assert (is_running w1 = is_running w) as Hr1 by apply is_running_emit.
  destruct (convert_single_spec i task env w1)
    as (head & qs & tail & Hf2 & Hhead & Htail & Hpre & Hkeep & Hres).
  destruct (_convert_single HAS_MUTAGEN config i task env w1) as [[success message] w2].
  simpl in *.
  set (w3 := update_task i (set_end_time (clock_end env))
               (update_task i (set_error_message (if success then "" else message))
                  (update_task i (set_status (if success then completed else failed)) w2))).
  assert (length (tasks w2) = length (tasks w)) as Hlen.
  { rewrite (frame_length _ _ _ _ Hf2). apply (frame_length _ _ _ _ Hf1). }
  destruct (lookup_lt_is_Some_2 (tasks w2) i) as [t2 Ht2]; [lia|].
  exists head, qs, tail, success, message,
    (set_end_time (clock_end env)
       (set_error_message (if success then "" else message)
          (set_status (if success then completed else failed) t2))).
  split_and!.
  - pose proof (frame_trans _ _ _ _ _ _ Hf1 Hf2) as Hf12.
    assert (frame i w2 w3 []) as Hf3.
    { eapply (frame_trans _ _ _ _ [] []); [|apply frame_update_task].
      eapply (frame_trans _ _ _ _ [] []); apply frame_update_task. }
    pose proof (frame_trans _ _ _ _ _ _ Hf12 Hf3) as Hf13.
    pose proof (frame_trans _ _ _ _ _ _ Hf13
                  (frame_trans _ _ _ _ _ _
                     (frame_emit i (task_completed i success message) w3 eq_refl)
                     (frame_land_stop_end i env _))) as Hf.
    simpl in Hf. rewrite app_nil_r in Hf. by rewrite <- !app_assoc in Hf.
  - done.
  - done.
  - done.
  - rewrite tasks_land_stop_end, tasks_emit_task_completed. subst w3. simpl.
    by rewrite !list_lookup_alter_eq, Ht2.
  - done.
  - intros Hnone. rewrite land_stop_end_none by done.
    rewrite is_running_emit. simpl. by rewrite Hkeep.
  - intros [j Hj]. by eapply land_stop_end_some.
  - intros Hnone Hw. apply Hres; [done|congruence].
Qed.

Lemma started_of_app evs1 evs2 :
  started_of (evs1 ++ evs2) = started_of evs1 ++ started_of evs2.
Proof.
  induction evs1 as [|e evs1 IH]; [done|]. destruct e; simpl; by rewrite ?IH.
Qed.

Lemma started_of_plain evs : Forall plain evs → started_of evs = [].
Proof. induction 1 as [|e evs He _ IH]; [done|]. by destruct e. Qed.

Lemma started_of_progress i (qs : list Z) :
  started_of ((λ p, progress_updated i p 0) <$> qs) = [].
Proof. by induction qs. Qed.

Lemma plain_not_progress_of i evs :
  Forall plain evs → Forall (not_progress_of i) evs.
Proof. intros H. eapply Forall_impl; [done|]. by intros []. Qed.

Lemma plain_from i evs : Forall plain evs → Forall (from i) evs.
Proof. intros H. eapply Forall_impl; [done|]. by intros []. Qed.

Lemma from_S_not_progress_of i evs :
  Forall (from (S i)) evs → Forall (not_progress_of i) evs.
Proof. intros H. eapply Forall_impl; [done|]. intros []; simpl; try done. lia. Qed.

Lemma from_S i evs : Forall (from (S i)) evs → Forall (from i) evs.
Proof. intros H. eapply Forall_impl; [done|]. intros []; simpl; try done; lia. Qed.

Lemma progress_from i (qs : list Z) :
  Forall (from i) ((λ p, progress_updated i p 0) <$> qs).
Proof. apply Forall_fmap, Forall_true. intros p. simpl. lia. Qed.

Lemma progress_not_progress_of i k (qs : list Z) :
  i ≠ k → Forall (not_progress_of k) ((λ p, progress_updated i p 0) <$> qs).
Proof. intros Hne. apply Forall_fmap, Forall_true. by intros p. Qed.

(** Once the flag is down the loop starts nothing more. *)
Lemma run_from_stopped i rest world w :
  is_running w = false → run_from HAS_MUTAGEN config i rest world w = w.
Proof. intros Hw. destruct rest; simpl; [done|]. by rewrite Hw. Qed.

Lemma run_from_app rest1 rest2 i world w :
  run_from HAS_MUTAGEN config i (rest1 ++ rest2) world w
  = run_from HAS_MUTAGEN config (i + length rest1) rest2 world
      (run_from HAS_MUTAGEN config i rest1 world w).
Proof.
  revert i w. induction rest1 as [|task rest1 IH]; intros i w; simpl.
  - by rewrite Nat.add_0_r.
  - destruct (is_running w) eqn:Hw; simpl.
    + rewrite IH. f_equal. lia.
    + by rewrite run_from_stopped.
Qed.

(** A stretch of the loop during which nobody stops the worker: every task
    of the stretch is announced, in order, and ends [completed] or [failed]
    by what it met itself; the tasks outside the stretch are left alone. *)
Lemma run_from_no_stop world rest : ∀ i w,
  (∀ j, i ≤ j < i + length rest → stop_request (world j) = None)%nat →
  is_running w = true →
  (i + length rest ≤ length (tasks w))%nat →
  ∃ evs,
    trace (run_from HAS_MUTAGEN config i rest world w) = trace w ++ evs
    ∧ length (tasks (run_from HAS_MUTAGEN config i rest world w)) = length (tasks w)
    ∧ is_running (run_from HAS_MUTAGEN config i rest world w) = true
    ∧ (∀ j, (j < i ∨ i + length rest ≤ j)%nat →
         tasks (run_from HAS_MUTAGEN config i rest world w) !! j = tasks w !! j)
    ∧ Forall (from i) evs
    ∧ started_of evs = seq i (length rest)
    ∧ (∀ n task, rest !! n = Some task →
         (∃ t, tasks (run_from HAS_MUTAGEN config i rest world w) !! (i + n)%nat = Some t
               ∧ status t = if succeeds (world (i + n)%nat) then completed else failed)
         ∧ (makedirs_error (world (i + n)%nat) = None →
              ∃ pre post,
                evs = pre ++ ((λ p, progress_updated (i + n) p 0) <$> progress_range)
                          ++ subprocess_run (ffmpeg_cmd config task) :: post
                ∧ Forall (not_progress_of (i + n)) pre
                ∧ Forall (not_progress_of (i + n)) post)).
Proof.
  induction rest as [|task rest IH]; intros i w Hnone Hw Hlen; simpl in *.
  { exists []. rewrite app_nil_r. by split_and!. }
  rewrite Hw. cbn [negb].
  destruct (run_task_spec i task (world i) w) as
    (head & qs & tail & success & message & t & Hf & Hhead & Htail & Hpre
     & Hti & Hst & Hkeep & _ & Hres); [lia|].
  assert (stop_request (world i) = None) as Hni by (apply Hnone; lia).
  specialize (Hkeep Hni). destruct (Hres Hni Hw) as [-> Hshape]. clear Hres.
  set (w1 := run_task HAS_MUTAGEN config i task (world i) w) in *.
  destruct (IH (S i) w1) as (evs' & Htr & Hl & Hr & Hout & Hfrom & Hstarted & Hper).
  { intros j Hj. apply Hnone. lia. }
  { congruence. }
  { rewrite (frame_length _ _ _ _ Hf). lia. }
  set (done_i := task_completed i (succeeds (world i)) message) in *.
  assert (Forall (about i) (conversion_started i
              :: head ++ ((λ p, progress_updated i p 0) <$> qs) ++ tail ++ [done_i]))
    as Habout.
  { constructor; [done|]. rewrite !Forall_app. split_and!.
    - eapply Forall_impl; [done|]. by intros [].
    - apply Forall_fmap, Forall_true. by intros p.
    - eapply Forall_impl; [done|]. by intros [].
    - by repeat constructor. }
  eexists. split_and!.
  - rewrite Htr, (frame_trace _ _ _ _ Hf), <- app_assoc. reflexivity.
  - rewrite Hl. apply (frame_length _ _ _ _ Hf).
  - done.
  - intros j Hj. rewrite Hout by lia. apply (frame_other _ _ _ _ Hf). lia.
  - apply Forall_app. split; [|by apply from_S].
    eapply Forall_impl; [done|]. intros []; simpl; try done; lia.
  - rewrite started_of_app. simpl. rewrite !started_of_app, started_of_progress.
    rewrite (started_of_plain head), (started_of_plain tail) by done.
    simpl. by rewrite Hstarted.
  - intros n task' Hn. destruct n as [|n]; simpl in Hn.
    + injection Hn as <-. rewrite Nat.add_0_r. split.
      * rewrite Hout by lia. eauto.
      * intros Hmk. destruct (Hshape Hmk) as (-> & tail' & ->).
        exists (conversion_started i :: head), (tail' ++ [done_i] ++ evs').
        split_and!.
        -- simpl. rewrite <- !app_assoc. simpl. by rewrite <- !app_assoc.
        -- constructor; [done|]. by apply plain_not_progress_of.
        -- apply Forall_cons in Htail as [_ Htail']. rewrite !Forall_app. split_and!.
           ++ by apply plain_not_progress_of.
           ++ by repeat constructor.
           ++ by apply from_S_not_progress_of.
    + replace (i + S n)%nat with (S i + n)%nat by lia.
      destruct (Hper n task' Hn) as [Hstat Hseg]. split; [done|].
      intros Hmk. destruct (Hseg Hmk) as (pre & post & -> & Hpre' & Hpost').
      eexists (_ ++ pre), post. split_and!.
      * rewrite <- app_assoc. reflexivity.
      * apply Forall_app. split; [|done].
        eapply Forall_impl; [done|]. intros []; simpl; try done. lia.
      * done.
Qed.

Lemma progress_of_app i evs1 evs2 :
  progress_of i (evs1 ++ evs2) = progress_of i evs1 ++ progress_of i evs2.
Proof.
  induction evs1 as [|e evs1 IH]; [done|]. destruct e; simpl; try done.
  case_bool_decide; by rewrite IH.
Qed.

Lemma progress_of_none i evs :
  Forall (not_progress_of i) evs → progress_of i evs = [].
Proof.
  induction 1 as [|e evs He _ IH]; [done|]. destruct e; simpl in *; try done.
  by rewrite bool_decide_eq_false_2.
Qed.

Lemma progress_of_fmap i (qs : list Z) :
  progress_of i ((λ p, progress_updated i p 0) <$> qs) = qs.
Proof.
  induction qs as [|q qs IH]; [done|]. simpl.
  rewrite bool_decide_eq_true_2 by done. f_equal. apply IH.
Qed.

(** C4. When nobody stops the run, every task of the batch is started, in
    order, and ends [completed] or [failed] by what it met itself: a missing
    output directory, a non-zero exit code or an exception of the conversion
    make that task [failed] and the loop goes on to the next one. *)
Theorem C4_failure_stays_with_its_task
    (ts : list ConversionTask) (world : nat → TaskEnv) :
  (∀ i, stop_request (world i) = None) →
  length (tasks (run HAS_MUTAGEN config world (init ts))) = length ts
  ∧ started_of (trace (run HAS_MUTAGEN config world (init ts))) = seq 0 (length ts)
  ∧ ∀ i, (i < length ts)%nat →
      ∃ t, tasks (run HAS_MUTAGEN config world (init ts)) !! i = Some t
           ∧ status t = if succeeds (world i) then completed else failed.
Proof.
  intros Hnone. unfold run.
  destruct (run_from_no_stop world ts 0 (init ts))
    as (evs & Htr & Hl & _ & _ & _ & Hstarted & Hper); [by auto|done|done|].
  simpl in *. split_and!; [done|by rewrite Htr|].
  intros i Hi. destruct (lookup_lt_is_Some_2 ts i Hi) as [task Htask].
  by destruct (Hper i task Htask).
Qed.

(** C3. The user stops the worker while task [k] is in flight. Then tasks
    [0..k] end [completed] or [failed], the tasks after [k] stay as they
    were, and [conversion_started] has been emitted for [0..k] and for no
    other task. *)
Theorem C3_stop_during_task_k
    (ts : list ConversionTask) (world : nat → TaskEnv) (k j : nat) :
  (k < length ts)%nat →
  (∀ i, (i < k)%nat → stop_request (world i) = None) →
  stop_request (world k) = Some j →
  length (tasks (run HAS_MUTAGEN config world (init ts))) = length ts
  ∧ (∀ i, (i ≤ k)%nat →
       ∃ t, tasks (run HAS_MUTAGEN config world (init ts)) !! i = Some t
            ∧ terminal (status t) = true)
  ∧ (∀ i, (k < i)%nat →
       tasks (run HAS_MUTAGEN config world (init ts)) !! i = ts !! i)
  ∧ started_of (trace (run HAS_MUTAGEN config world (init ts))) = seq 0 (S k)
  ∧ is_running (run HAS_MUTAGEN config world (init ts)) = false.
Proof.
  intros Hk Hbefore Hstop. unfold run. simpl.
  destruct (lookup_lt_is_Some_2 ts k Hk) as [task Htask].
  assert (length (take k ts) = k) as Htake by (rewrite length_take; lia).
  assert (run_from HAS_MUTAGEN config 0 ts world (init ts)
          = run_from HAS_MUTAGEN config k (task :: drop (S k) ts) world
              (run_from HAS_MUTAGEN config 0 (take k ts) world (init ts))) as ->.
  { rewrite <- (take_drop_middle ts k task Htask) at 1.
    by rewrite run_from_app, Htake. }
  cbn [run_from].
  destruct (run_from_no_stop world (take k ts) 0 (init ts))
    as (evs & Htr & Hl & Hr & Hout & _ & Hstarted & Hper).
  { intros i Hi. apply Hbefore. lia. }
  { done. }
  { simpl. lia. }
  set (wA := run_from HAS_MUTAGEN config 0 (take k ts) world (init ts)) in *.
  rewrite Hr. cbn [negb]. simpl in Hl, Htr, Hout.
  destruct (run_task_spec k task (world k) wA) as
    (head & qs & tail & success & message & t & Hf & Hhead & Htail & Hpre
     & Hti & Hst & _ & Hdown & _); [lia|].
  set (wB := run_task HAS_MUTAGEN config k task (world k) wA) in *.
  rewrite run_from_stopped by eauto.
  split_and!.
  - rewrite (frame_length _ _ _ _ Hf). done.
  - intros i Hi. destruct (decide (i = k)) as [->|Hne].
    + exists t. split; [done|]. rewrite Hst. by destruct success.
    + rewrite (frame_other _ _ _ _ Hf) by done.
      destruct (lookup_lt_is_Some_2 (take k ts) i) as [ti Hti']; [lia|].
      destruct (Hper i ti Hti') as [(t' & Ht' & Hst') _].
      change (0 + i)%nat with i in Ht', Hst'.
      exists t'. split; [done|]. rewrite Hst'. by destruct (succeeds (world i)).
  - intros i Hi. rewrite (frame_other _ _ _ _ Hf) by lia.
    rewrite Hout by lia. done.
  - rewrite (frame_trace _ _ _ _ Hf), Htr. simpl.
    rewrite !started_of_app. simpl. rewrite !started_of_app, started_of_progress.
    rewrite (started_of_plain head), (started_of_plain tail), Hstarted, Htake by done.
    change (0%nat :: seq 1 k) with (seq 0 (S k)). by rewrite seq_S.
  - eauto.
Qed.

(** *** The progress field *)

Lemma tasks_emit_progress i p c w :
  (i < length (status_labels w))%nat →
  tasks (emit (progress_updated i p c) w) = alter (set_progress p) i (tasks w).
Proof.
  intros Hi. unfold emit. simpl. unfold _on_progress_updated. simpl.
  rewrite bool_decide_eq_true_2 by done. by destruct (p =? 100).
Qed.

Lemma tasks_emit_plain e w : plain e → tasks (emit e w) = tasks w.
Proof. by destruct e. Qed.

Lemma tasks_emit_conversion_started i w :
  tasks (emit (conversion_started i) w) = tasks w.
Proof. unfold emit. simpl. unfold _on_conversion_started. by case_bool_decide. Qed.

Lemma tasks_extract_cover_art env video audio w :
  tasks (_extract_cover_art env video audio w) = tasks w.
Proof. unfold _extract_cover_art. by destruct (cover_art_error env). Qed.

Lemma tasks_preserve_metadata env video audio w :
  tasks (_preserve_metadata HAS_MUTAGEN env video audio w) = tasks w.
Proof.
  unfold _preserve_metadata. destruct HAS_MUTAGEN; [|done].
  by destruct (metadata_error env).
Qed.

(** With its widget in place and nobody stopping the worker, the loop
    leaves in [task.progress] the last percentage of the range; the status
    is not touched. *)
Lemma progress_loop_progress i env ps : ∀ reads w t0,
  stop_request env = None → is_running w = true →
  (i < length (status_labels w))%nat →
  tasks w !! i = Some t0 →
  ∃ t, tasks (progress_loop i env reads ps w).2 !! i = Some t
       ∧ progress t = default (progress t0) (last ps)
       ∧ status t = status t0.
Proof.
  induction ps as [|p ps IH]; intros reads w t0 Hnone Hw Hi Ht0; simpl.
  { by exists t0. }
  rewrite land_stop_none by done. rewrite Hw. cbn [negb].
  destruct (IH (S reads) (emit (progress_updated i p 0) w) (set_progress p t0))
    as (t & Ht & Hp & Hs).
  - done.
  - by rewrite is_running_emit.
  - by rewrite (frame_labels _ _ _ _ (frame_emit i (progress_updated i p 0) w eq_refl)).
  - by rewrite tasks_emit_progress, list_lookup_alter_eq, Ht0.
  - exists t. split_and!; [done| |done]. rewrite Hp, last_cons.
    by destruct (last ps).
Qed.

Lemma convert_single_progress i task env w t0 :
  stop_request env = None → is_running w = true →
  makedirs_error env = None →
  (i < length (status_labels w))%nat →
  tasks w !! i = Some t0 →
  ∃ t, tasks (_convert_single HAS_MUTAGEN config i task env w).2 !! i = Some t
       ∧ progress t = 100
       ∧ status t = status t0.
Proof.
  intros Hnone Hw Hmk Hi Ht0. unfold _convert_single. rewrite Hmk.
  set (w1 := emit (log_message _ _) w).
  destruct (progress_loop_progress i env progress_range 0 w1 t0)
    as (t & Ht & Hp & Hs); [done|by unfold w1; rewrite is_running_emit| | |].
  { unfold w1. by rewrite (frame_labels _ _ _ _ (frame_emit i (log_message _ _) w I)). }
  { unfold w1. by rewrite tasks_emit_plain. }
  destruct (progress_loop_spec i env progress_range 0 w1) as (qs & _ & _ & _ & Hall).
  destruct Hall as [Hfin _]; [done|by unfold w1; rewrite is_running_emit|].
  destruct (progress_loop i env 0 progress_range w1) as [fin w2].
  simpl in Ht, Hfin. subst fin. cbn [negb].
  exists t. split; [|done].
  destruct (ffmpeg_result env) as [e|returncode stderr]; [done|].
  destruct (returncode =? 0); [|done]. cbn [snd].
  destruct (get (preserve_metadata config) true && HAS_MUTAGEN);
    destruct (get (extract_cover config) true && HAS_MUTAGEN);
    by rewrite ?tasks_preserve_metadata, ?tasks_extract_cover_art.
Qed.

Lemma run_task_progress i task env w :
  stop_request env = None → is_running w = true →
  makedirs_error env = None →
  (i < length (status_labels w))%nat →
  (i < length (tasks w))%nat →
  ∃ t, tasks (run_task HAS_MUTAGEN config i task env w) !! i = Some t
       ∧ progress t = 100.
Proof.
  intros Hnone Hw Hmk Hi Hlen. unfold run_task.
  destruct (lookup_lt_is_Some_2 (tasks w) i Hlen) as [t0 Ht0].
  set (w1 := update_task i (set_start_time (clock_start env))
               (update_task i (set_status converting) (emit (conversion_started i) w))).
  destruct (convert_single_progress i task env w1
              (set_start_time (clock_start env) (set_status converting t0)))
    as (t & Ht & Hp & _);
    [done|by unfold w1; simpl; rewrite is_running_emit|done| | |].
  { subst w1. simpl.
    by rewrite (frame_labels _ _ _ _ (frame_emit i (conversion_started i) w eq_refl)). }
  { subst w1. simpl.
    by rewrite !list_lookup_alter_eq, tasks_emit_conversion_started, Ht0. }
  destruct (_convert_single HAS_MUTAGEN config i task env w1) as [[success message] w2].
  simpl in Ht.
  rewrite tasks_land_stop_end, tasks_emit_task_completed. simpl.
  rewrite !list_lookup_alter_eq, Ht. by eexists.
Qed.

Lemma run_from_labels world rest : ∀ i w,
  (i + length rest ≤ length (tasks w))%nat →
  length (status_labels (run_from HAS_MUTAGEN config i rest world w))
  = length (status_labels w).
Proof.
  induction rest as [|task rest IH]; intros i w Hlen; simpl in *; [done|].
  destruct (is_running w); [|done]. cbn [negb].
  destruct (run_task_spec i task (world i) w) as
    (head & qs & tail & success & message & t & Hf & _); [lia|].
  rewrite IH; [apply (frame_labels _ _ _ _ Hf)|].
  rewrite (frame_length _ _ _ _ Hf). lia.
Qed.

(** In a run that nobody stops, every task whose output directory can be
    made ends with progress 100, [completed] or [failed] alike. *)
Lemma unstopped_task_ends_at_100
    (ts : list ConversionTask) (world : nat → TaskEnv) (i : nat) :
  (∀ j, stop_request (world j) = None) →
  (i < length ts)%nat →
  makedirs_error (world i) = None →
  ∃ t, tasks (run HAS_MUTAGEN config world (init ts)) !! i = Some t
       ∧ progress t = 100
       ∧ status t = if succeeds (world i) then completed else failed.
Proof.
  intros Hnone Hi Hmk. unfold run. change (tasks (init ts)) with ts.
  destruct (lookup_lt_is_Some_2 ts i Hi) as [task Htask].
  destruct (run_from_no_stop world ts 0 (init ts))
    as (evs0 & _ & _ & _ & _ & _ & _ & Hper); [by auto|done|done|].
  destruct (Hper i task Htask) as [(t & Ht & Hst) _].
  change (0 + i)%nat with i in Ht, Hst.
  exists t. split_and!; [done| |done].
  revert Ht.
  assert (length (take i ts) = i) as Htake by (rewrite length_take; lia).
  destruct (run_from_no_stop world (take i ts) 0 (init ts))
    as (evs & HtrA & HlA & HrA & _); [by auto|done|simpl; lia|].
  assert (run_from HAS_MUTAGEN config 0 ts world (init ts)
          = run_from HAS_MUTAGEN config (S i) (drop (S i) ts) world
              (run_task HAS_MUTAGEN config i task (world i)
                 (run_from HAS_MUTAGEN config 0 (take i ts) world (init ts)))) as ->.
  { rewrite <- (take_drop_middle ts i task Htask) at 1.
    rewrite run_from_app, Htake. cbn [run_from]. by rewrite HrA. }
  assert (length (status_labels
                    (run_from HAS_MUTAGEN config 0 (take i ts) world (init ts)))
          = length ts) as HwA.
  { rewrite run_from_labels; simpl; [by rewrite length_map|lia]. }
  set (wA := run_from HAS_MUTAGEN config 0 (take i ts) world (init ts)) in *.
  simpl in HlA.
  destruct (run_task_progress i task (world i) wA) as (t' & Ht' & Hp');
    [done|done|done|lia|lia|].
  destruct (run_task_spec i task (world i) wA) as
    (head & qs & tail & success & message & t1 & Hf & _ & _ & _ & _ & _ & Hkeep & _);
    [lia|].
  set (wB := run_task HAS_MUTAGEN config i task (world i) wA) in *.
  destruct (run_from_no_stop world (drop (S i) ts) (S i) wB)
    as (evs' & _ & _ & _ & Hout & _); [by auto|by rewrite Hkeep| |].
  { rewrite (frame_length _ _ _ _ Hf), length_drop. lia. }
  rewrite Hout by lia. rewrite Ht'. by intros [= <-].
Qed.

(** In every run, stopped or not, the percentages signalled for a task are
    an initial stretch of 0, 10, ..., 100: they never decrease, and 100 can
    only come last. *)
Lemma run_from_progress_prefix world rest : ∀ i w,
  (i + length rest ≤ length (tasks w))%nat →
  ∃ evs,
    trace (run_from HAS_MUTAGEN config i rest world w) = trace w ++ evs
    ∧ Forall (from i) evs
    ∧ ∀ k, progress_of k evs `prefix_of` progress_range.
Proof.
  induction rest as [|task rest IH]; intros i w Hlen; simpl in *.
  { exists []. rewrite app_nil_r. split_and!; [done|done|]. intros k. apply prefix_nil. }
  destruct (is_running w); cbn [negb].
  2:{ exists []. rewrite app_nil_r. split_and!; [done|done|]. intros k. apply prefix_nil. }
  destruct (run_task_spec i task (world i) w) as
    (head & qs & tail & success & message & t & Hf & Hhead & Htail & Hpre & _); [lia|].
  destruct (IH (S i) (run_task HAS_MUTAGEN config i task (world i) w))
    as (evs' & Htr & Hfrom & Hk).
  { rewrite (frame_length _ _ _ _ Hf). lia. }
  eexists. split_and!.
  - rewrite Htr, (frame_trace _ _ _ _ Hf), <- app_assoc. reflexivity.
  - apply Forall_app. split; [|by apply from_S].
    constructor; [simpl; lia|]. rewrite !Forall_app. split_and!.
    + by apply plain_from.
    + apply progress_from.
    + by apply plain_from.
    + by repeat constructor.
  - intros k. rewrite progress_of_app. cbn [progress_of].
    rewrite !progress_of_app, (progress_of_none k head), (progress_of_none k tail)
      by (by apply plain_not_progress_of).
    cbn [progress_of app]. rewrite app_nil_r.
    destruct (decide (k = i)) as [->|Hne].
    + rewrite progress_of_fmap, (progress_of_none i evs'), app_nil_r
        by (by apply from_S_not_progress_of). done.
    + rewrite (progress_of_none k ((λ p, progress_updated i p 0) <$> qs))
        by (apply progress_not_progress_of; congruence).
      apply Hk.
Qed.

(** The progress signals of a task, in the order the worker emits them, are
    an initial stretch of 0, 10, ..., 100, whatever happens to the task and
    whenever the worker is stopped: none out of order, none twice. *)
Lemma progress_signals_follow_range (ts : list ConversionTask)
    (world : nat → TaskEnv) (k : nat) :
  progress_of k (trace (run HAS_MUTAGEN config world (init ts)))
    `prefix_of` progress_range
  ∧ StronglySorted Z.le (progress_of k (trace (run HAS_MUTAGEN config world (init ts)))).
Proof.
  unfold run. change (tasks (init ts)) with ts.
  destruct (run_from_progress_prefix world ts 0 (init ts)) as (evs & -> & _ & Hk);
    [done|].
  simpl. split; [apply Hk|].
  destruct (Hk k) as [rest Hrest].
  assert (StronglySorted Z.le progress_range) as Hsorted.
  { unfold progress_range. repeat (constructor; [|repeat constructor; lia]).
    constructor. }
  rewrite Hrest in Hsorted. by apply StronglySorted_app_1_l in Hsorted.
Qed.

(** C10, amended. A task that is processed while nobody has stopped the
    worker, and whose output directory can be made: the worker signals
    exactly 0, 10, ..., 100 for it, and all of it before it spawns ffmpeg
    for that task, so that what ffmpeg does has no part in the percentages.
    A stop that comes while a later task is in flight changes nothing of
    this. *)
Theorem C10_progress_range_before_ffmpeg
    (ts : list ConversionTask) (world : nat → TaskEnv) (i : nat)
    (task : ConversionTask) :
  (∀ j, (j ≤ i)%nat → stop_request (world j) = None) →
  ts !! i = Some task →
  makedirs_error (world i) = None →
  progress_of i (trace (run HAS_MUTAGEN config world (init ts))) = progress_range
  ∧ ∃ pre post,
      trace (run HAS_MUTAGEN config world (init ts))
      = pre ++ ((λ p, progress_updated i p 0) <$> progress_range)
            ++ subprocess_run (ffmpeg_cmd config task) :: post
      ∧ Forall (not_progress_of i) pre
      ∧ Forall (not_progress_of i) post.
Proof.
  intros Hnone Htask Hmk. unfold run. change (tasks (init ts)) with ts.
  assert (i < length ts)%nat as Hi by (by eapply lookup_lt_Some).
  assert (length (take (S i) ts) = S i) as Htake by (rewrite length_take; lia).
  assert (run_from HAS_MUTAGEN config 0 ts world (init ts)
          = run_from HAS_MUTAGEN config (S i) (drop (S i) ts) world
              (run_from HAS_MUTAGEN config 0 (take (S i) ts) world (init ts))) as ->.
  { rewrite <- (take_drop (S i) ts) at 1. by rewrite run_from_app, Htake. }
  destruct (run_from_no_stop world (take (S i) ts) 0 (init ts))
    as (evs & Htr & Hl & _ & _ & _ & _ & Hper);
    [intros j Hj; apply Hnone; lia|done|simpl; lia|].
  set (w1 := run_from HAS_MUTAGEN config 0 (take (S i) ts) world (init ts)) in *.
  destruct (run_from_progress_prefix world (drop (S i) ts) (S i) w1)
    as (evs' & Htr' & Hfrom & _).
  { rewrite Hl, length_drop. simpl. lia. }
  assert (take (S i) ts !! i = Some task) as Htask'
    by (rewrite lookup_take_lt; [done|lia]).
  destruct (Hper i task Htask') as [_ Hseg]. change (0 + i)%nat with i in Hseg.
  destruct (Hseg Hmk) as (pre & post & -> & Hpre & Hpost).
  assert (Forall (not_progress_of i) (post ++ evs')) as Hpost'.
  { apply Forall_app. split; [done|]. by apply from_S_not_progress_of. }
  rewrite Htr', Htr. change (trace (init ts)) with (@nil Event).
  rewrite app_nil_l. split.
  - rewrite !progress_of_app, progress_of_fmap. cbn [progress_of app].
    rewrite (progress_of_none i pre), (progress_of_none i post),
      (progress_of_none i evs') by (done || by apply from_S_not_progress_of).
    by rewrite !app_nil_r.
  - exists pre, (post ++ evs'). split_and!; [|done|done].
    by rewrite <- !app_assoc.
Qed.

End Runs.

Import ConversionWorker Run.

Lemma C4_failure_stays_with_its_task_witness :
  (∀ i, stop_request (world_fail_first i) = None)
  ∧ length (tasks (run true sample_config world_fail_first
                       (init [sample_task_a; sample_task_b]))) = 2%nat
  ∧ started_of (trace (run true sample_config world_fail_first
                           (init [sample_task_a; sample_task_b]))) = [0; 1]%nat
  ∧ ∀ i, (i < 2)%nat →
      ∃ t, tasks (run true sample_config world_fail_first
                      (init [sample_task_a; sample_task_b])) !! i = Some t
           ∧ status t = if succeeds (world_fail_first i) then completed else failed.
Proof.
  assert (∀ i, stop_request (world_fail_first i) = None) as Hnone.
  { intros i. unfold world_fail_first. by case_bool_decide. }
  split; [exact Hnone|].
  exact (C4_failure_stays_with_its_task true sample_config
           [sample_task_a; sample_task_b] world_fail_first Hnone).
Defined.

Lemma C3_stop_during_task_k_witness :
  length (tasks (run true sample_config world_stop_first
                     (init [sample_task_a; sample_task_b]))) = 2%nat
  ∧ (∀ i, (i ≤ 0)%nat →
       ∃ t, tasks (run true sample_config world_stop_first
                       (init [sample_task_a; sample_task_b])) !! i = Some t
            ∧ terminal (status t) = true)
  ∧ (∀ i, (0 < i)%nat →
       tasks (run true sample_config world_stop_first
                  (init [sample_task_a; sample_task_b])) !! i
       = [sample_task_a; sample_task_b] !! i)
  ∧ started_of (trace (run true sample_config world_stop_first
                           (init [sample_task_a; sample_task_b]))) = [0%nat]
  ∧ is_running (run true sample_config world_stop_first
                    (init [sample_task_a; sample_task_b])) = false.
Proof.
  apply (C3_stop_during_task_k true sample_config
           [sample_task_a; sample_task_b] world_stop_first 0 3).
  - simpl. lia.
  - intros i Hi. lia.
  - reflexivity.
Defined.

(** C10, as the claim has it, fails: nobody stops the run, the output
    directory cannot be made, and no percentage at all is signalled for the
    task. *)
Lemma C10_counterexample :
  stop_request env_no_dir = None
  ∧ trace (run true sample_config (λ _, env_no_dir) (init [sample_task_a]))
    = [conversion_started 0;
       task_completed 0 false
         "Conversion error: [Errno 13] Permission denied: '/home/u/ConvertedAudio'"]
  ∧ progress_of 0 (trace (run true sample_config (λ _, env_no_dir)
                              (init [sample_task_a]))) = []
  ∧ progress_of 0 (trace (run true sample_config (λ _, env_no_dir)
                              (init [sample_task_a]))) ≠ progress_range.
Proof. split_and!; try reflexivity. discriminate. Qed.

Lemma C10_progress_range_before_ffmpeg_witness :
  stop_request (world_stop_second 1) = Some 3%nat
  ∧ progress_of 0 (trace (run true sample_config world_stop_second
                              (init [sample_task_a; sample_task_b])))
    = progress_range
  ∧ ∃ pre post,
      trace (run true sample_config world_stop_second
                 (init [sample_task_a; sample_task_b]))
      = pre ++ ((λ p, progress_updated 0 p 0) <$> progress_range)
            ++ subprocess_run (ffmpeg_cmd sample_config sample_task_a) :: post
      ∧ Forall (not_progress_of 0) pre
      ∧ Forall (not_progress_of 0) post.
Proof.
  split; [reflexivity|].
  apply (C10_progress_range_before_ffmpeg true sample_config
           [sample_task_a; sample_task_b] world_stop_second 0 sample_task_a).
  - intros j Hj. assert (j = 0%nat) as -> by lia. reflexivity.
  - reflexivity.
  - reflexivity.
Defined.

(** C2. ffmpeg exits with code 1 on the only task of the batch. The progress
    loop has run before ffmpeg is spawned: at its end the task is still
    [converting], its progress is 100 and its widget already reads
    "Completed". The task then ends [failed] with progress 100. *)
Theorem C2_failed_task_has_progress_100 :
  let started :=
    update_task 0 (set_start_time 10)
      (update_task 0 (set_status converting)
         (emit (conversion_started 0) (init [sample_task_a]))) in
  let after_loop := (progress_loop 0 env_exit_1 0 progress_range started).2 in
  let final := run true sample_config (λ _, env_exit_1) (init [sample_task_a]) in
  (status <$> tasks after_loop) = [converting]
  ∧ (progress <$> tasks after_loop) = [100]
  ∧ status_labels after_loop = ["Completed"]
  ∧ tasks final
    = [mkTask "/videos/a.mp4" "/home/u/ConvertedAudio/a.mp3" failed 100
              "FFmpeg error: codec error" (Some 10%nat) (Some 20%nat) 500000]
  ∧ status_labels final = ["Failed"].
Proof. split_and!; reflexivity. Qed.

(** * Further properties *)

(** ** What a run leaves of a task *)

Section Outcomes.
Import ConversionWorker Run Outcome.

#[local] Arguments emit : simpl never.
#[local] Arguments land_stop : simpl never.
#[local] Arguments land_stop_end : simpl never.
#[local] Arguments run_task : simpl never.
#[local] Arguments _convert_single : simpl never.

Variable HAS_MUTAGEN : bool.
Variable config : Config.

Lemma same_but_progress_trans t1 t2 t3 :
  same_but_progress t1 t2 → same_but_progress t2 t3 → same_but_progress t1 t3.
Proof. unfold same_but_progress. congruence. Qed.

Lemma tasks_land_stop env reads w : tasks (land_stop env reads w) = tasks w.
Proof.
  unfold land_stop. destruct (stop_request env); [|done]. by case_bool_decide.
Qed.

(** A signal changes of a task its progress at most. *)
Lemma tasks_emit_same_but_progress e w i t :
  tasks w !! i = Some t →
  ∃ t', tasks (emit e w) !! i = Some t' ∧ same_but_progress t t'.
Proof.
  intros Ht. destruct e as [j p c|j ok m|j|m l|cmd].
  - unfold emit. simpl. unfold _on_progress_updated. simpl.
    case_bool_decide; [|by exists t].
    assert (tasks (if p =? 100
                   then set_label j "Completed" (update_task j (set_progress p) (record (progress_updated j p c) w))
                   else update_task j (set_progress p) (record (progress_updated j p c) w))
            = alter (set_progress p) j (tasks w)) as -> by (by destruct (p =? 100)).
    destruct (decide (j = i)) as [->|Hne].
    + rewrite list_lookup_alter_eq, Ht. by eexists.
    + rewrite list_lookup_alter_ne by done. by exists t.
  - rewrite tasks_emit_task_completed. by exists t.
  - rewrite tasks_emit_conversion_started. by exists t.
  - rewrite tasks_emit_plain by done. by exists t.
  - rewrite tasks_emit_plain by done. by exists t.
Qed.

Lemma progress_loop_same_but_progress i k env ps : ∀ reads w t,
  tasks w !! k = Some t →
  ∃ t', tasks (progress_loop i env reads ps w).2 !! k = Some t'
        ∧ same_but_progress t t'.
Proof.
  induction ps as [|p ps IH]; intros reads w t Ht; simpl; [by exists t|].
  destruct (is_running (land_stop env reads w)); cbn [negb snd].
  - destruct (tasks_emit_same_but_progress (progress_updated i p 0)
                (land_stop env reads w) k t) as (t1 & Ht1 & Hs1).
    { by rewrite tasks_land_stop. }
    destruct (IH (S reads) _ t1 Ht1) as (t' & Ht' & Hs').
    exists t'. split; [done|]. by eapply same_but_progress_trans.
  - exists t. by rewrite tasks_land_stop.
Qed.

Lemma convert_single_same_but_progress i k task env w t :
  tasks w !! k = Some t →
  ∃ t', tasks (_convert_single HAS_MUTAGEN config i task env w).2 !! k = Some t'
        ∧ same_but_progress t t'.
Proof.
  intros Ht. unfold _convert_single.
  destruct (makedirs_error env); [by exists t|].
  set (w1 := emit (log_message _ _) w).
  destruct (progress_loop_same_but_progress i k env progress_range 0 w1 t)
    as (t' & Ht' & Hs').
  { unfold w1. by rewrite tasks_emit_plain. }
  destruct (progress_loop i env 0 progress_range w1) as [fin w2]. simpl in Ht'.
  exists t'. split; [|done].
  destruct fin; cbn [negb]; [|done].
  destruct (ffmpeg_result env) as [e|returncode stderr]; [done|].
  destruct (returncode =? 0); [|done]. cbn [snd].
  destruct (get (preserve_metadata config) true && HAS_MUTAGEN);
    destruct (get (extract_cover config) true && HAS_MUTAGEN);
    by rewrite ?tasks_preserve_metadata, ?tasks_extract_cover_art.
Qed.

Lemma completed_of_app evs1 evs2 :
  completed_of (evs1 ++ evs2) = completed_of evs1 ++ completed_of evs2.
Proof.
  induction evs1 as [|e evs1 IH]; [done|]. destruct e; simpl; by rewrite ?IH.
Qed.

Lemma completed_of_plain evs : Forall plain evs → completed_of evs = [].
Proof. induction 1 as [|e evs He _ IH]; [done|]. by destruct e. Qed.

Lemma completed_of_progress i (qs : list Z) :
  completed_of ((λ p, progress_updated i p 0) <$> qs) = [].
Proof. by induction qs. Qed.

(** One pass of the loop body, with what it leaves in the task: the paths
    and the size as before, the two time stamps, and status and error
    message by the verdict that [task_completed] announces. *)
Lemma run_task_processed i task env w t0 :
  tasks w !! i = Some t0 →
  ∃ success message t head qs tail,
    frame i w (run_task HAS_MUTAGEN config i task env w)
          (conversion_started i
             :: head ++ ((λ p, progress_updated i p 0) <$> qs) ++ tail
             ++ [task_completed i success message])
    ∧ Forall plain head ∧ Forall plain tail
    ∧ tasks (run_task HAS_MUTAGEN config i task env w) !! i = Some t
    ∧ processed env t0 t success message.
Proof.
  intros Ht0. unfold run_task.
  set (w1 := update_task i (set_start_time (clock_start env))
               (update_task i (set_status converting) (emit (conversion_started i) w))).
  assert (frame i w w1 [conversion_started i]) as Hf1.
  { eapply (frame_trans _ _ _ _ [_] []); [by apply frame_emit|].
    eapply (frame_trans _ _ _ _ [] []); apply frame_update_task. }
  assert (tasks w1 !! i
          = Some (set_start_time (clock_start env) (set_status converting t0))) as Ht1.
  { unfold w1. simpl.
    by rewrite !list_lookup_alter_eq, tasks_emit_conversion_started, Ht0. }
  destruct (convert_single_spec HAS_MUTAGEN config i task env w1)
    as (head & qs & tail & Hf2 & Hhead & Htail & _).
  destruct (convert_single_same_but_progress i i task env w1 _ Ht1)
    as (t2 & Ht2 & Hs2).
  destruct (_convert_single HAS_MUTAGEN config i task env w1) as [[success message] w2].
  simpl in Hf2, Ht2.
  set (w3 := update_task i (set_end_time (clock_end env))
               (update_task i (set_error_message (if success then "" else message))
                  (update_task i (set_status (if success then completed else failed)) w2))).
  exists success, message,
    (set_end_time (clock_end env)
       (set_error_message (if success then "" else message)
          (set_status (if success then completed else failed) t2))),
    head, qs, tail.
  split_and!; [|done|done| |].
  - pose proof (frame_trans _ _ _ _ _ _ Hf1 Hf2) as Hf12.
    assert (frame i w2 w3 []) as Hf3.
    { eapply (frame_trans _ _ _ _ [] []); [|apply frame_update_task].
      eapply (frame_trans _ _ _ _ [] []); apply frame_update_task. }
    pose proof (frame_trans _ _ _ _ _ _ Hf12 Hf3) as Hf13.
    pose proof (frame_trans _ _ _ _ _ _ Hf13
                  (frame_trans _ _ _ _ _ _
                     (frame_emit i (task_completed i success message) w3 eq_refl)
                     (frame_land_stop_end i env _))) as Hf.
    simpl in Hf. rewrite app_nil_r in Hf. by rewrite <- !app_assoc in Hf.
  - rewrite tasks_land_stop_end, tasks_emit_task_completed. subst w3. simpl.
    by rewrite !list_lookup_alter_eq, Ht2.
  - unfold same_but_progress in Hs2.
    unfold processed. simpl.
    split_and!; try done.
    + by apply (f_equal input_path) in Hs2.
    + by apply (f_equal output_path) in Hs2.
    + by apply (f_equal file_size) in Hs2.
    + by apply (f_equal start_time) in Hs2.
Qed.

(** The loop from position [i] on, in any environment: it handles the next
    [m] tasks and no other, announcing start and end of each once and in
    order; a task it handles ends as [processed] says. When it handles
    fewer tasks than there are, the flag is down. *)
Lemma run_from_processed world rest : ∀ i w,
  (i + length rest ≤ length (tasks w))%nat →
  ∃ m evs,
    (m ≤ length rest)%nat
    ∧ trace (run_from HAS_MUTAGEN config i rest world w) = trace w ++ evs
    ∧ started_of evs = seq i m
    ∧ completed_of evs = seq i m
    ∧ length (tasks (run_from HAS_MUTAGEN config i rest world w)) = length (tasks w)
    ∧ (∀ j, (j < i ∨ i + m ≤ j)%nat →
         tasks (run_from HAS_MUTAGEN config i rest world w) !! j = tasks w !! j)
    ∧ (∀ j t0, (i ≤ j < i + m)%nat → tasks w !! j = Some t0 →
         ∃ t success message,
           tasks (run_from HAS_MUTAGEN config i rest world w) !! j = Some t
           ∧ processed (world j) t0 t success message
           ∧ task_completed j success message ∈ evs)
    ∧ ((m < length rest)%nat →
         is_running (run_from HAS_MUTAGEN config i rest world w) = false).
Proof.
  induction rest as [|task rest IH]; intros i w Hlen; simpl in *.
  { exists 0%nat, []. rewrite app_nil_r. split_and!; try done; intros; lia. }
  destruct (is_running w) eqn:Hw; cbn [negb].
  2:{ exists 0%nat, []. rewrite app_nil_r. split_and!; try done; try lia. }
  destruct (lookup_lt_is_Some_2 (tasks w) i) as [ti Hti]; [lia|].
  destruct (run_task_processed i task (world i) w ti Hti)
    as (success & message & t & head & qs & tail & Hf & Hhead & Htail & Ht & Hproc).
  set (w1 := run_task HAS_MUTAGEN config i task (world i) w) in *.
  destruct (IH (S i) w1)
    as (m & evs & Hm & Htr & Hst & Hco & Hl & Hout & Hper & Hdown).
  { rewrite (frame_length _ _ _ _ Hf). lia. }
  exists (S m). eexists. split_and!.
  - lia.
  - rewrite Htr, (frame_trace _ _ _ _ Hf), <- app_assoc. reflexivity.
  - rewrite started_of_app. cbn [started_of]. rewrite !started_of_app, started_of_progress.
    rewrite (started_of_plain head), (started_of_plain tail), Hst by done. done.
  - rewrite completed_of_app. cbn [completed_of].
    rewrite !completed_of_app, completed_of_progress.
    rewrite (completed_of_plain head), (completed_of_plain tail), Hco by done. done.
  - rewrite Hl. apply (frame_length _ _ _ _ Hf).
  - intros j Hj. rewrite Hout by lia. apply (frame_other _ _ _ _ Hf). lia.
  - intros j t0 Hj Ht0. destruct (decide (j = i)) as [->|Hne].
    + rewrite Hout by lia. simplify_eq. exists t, success, message.
      split_and!; [done|done|]. apply elem_of_app. left.
      apply elem_of_cons. right. rewrite !elem_of_app. right. right. right.
      by apply list_elem_of_singleton.
    + destruct (Hper j t0) as (t' & success' & message' & Ht' & Hp' & Hin'); [lia| |].
      { rewrite (frame_other _ _ _ _ Hf) by done. done. }
      exists t', success', message'. split_and!; [done|done|].
      apply elem_of_app. by right.
  - intros Hlt. apply Hdown. lia.
Qed.

(** *** When the stop lands *)

(** The progress loop when [stop()] lands after [j] of its reads: it signals
    what the range has up to there and runs to its end only if the range is
    no longer than that. *)
Lemma progress_loop_stop_at i env j ps : ∀ reads w,
  stop_request env = Some j → is_running w = true →
  frame i w (progress_loop i env reads ps w).2
        ((λ p, progress_updated i p 0) <$> take (j - reads) ps)
  ∧ (progress_loop i env reads ps w).1 = bool_decide (length ps ≤ j - reads)%nat
  ∧ is_running (progress_loop i env reads ps w).2
    = bool_decide (length ps ≤ j - reads)%nat.
Proof.
  induction ps as [|p ps IH]; intros reads w Hstop Hw; simpl.
  { rewrite take_nil. split; [apply frame_refl|]. rewrite Hw.
    split; try case_bool_decide; (done || lia). }
  assert (land_stop env reads w = if bool_decide (j ≤ reads)%nat then stop w else w)
    as -> by (unfold land_stop; by rewrite Hstop).
  destruct (bool_decide_reflect (j ≤ reads)%nat) as [Hle|Hgt].
  - cbn [is_running stop negb fst snd].
    replace (j - reads)%nat with 0%nat by lia. cbn [take fmap list_fmap].
    split; [apply frame_stop|]. by rewrite bool_decide_eq_false_2 by lia.
  - rewrite Hw. cbn [negb].
    destruct (IH (S reads) (emit (progress_updated i p 0) w) Hstop)
      as (Hf & Hfin & Hrun); [by rewrite is_running_emit|].
    replace (j - reads)%nat with (S (j - S reads)) by lia. cbn [take].
    split_and!.
    + eapply (frame_trans _ _ _ _ [_] _); [by apply frame_emit|done].
    + rewrite Hfin. apply bool_decide_ext. lia.
    + rewrite Hrun. apply bool_decide_ext. lia.
Qed.

(** [_convert_single] once the progress loop has run to its end: ffmpeg is
    spawned and its outcome is the verdict. *)
Lemma convert_single_loop_done i task env w :
  makedirs_error env = None →
  (progress_loop i env 0 progress_range
     (emit (log_message ("Converting: " +:+ basename (input_path task)) "info") w)).1
  = true →
  (_convert_single HAS_MUTAGEN config i task env w).1.1 = succeeds env
  ∧ (_convert_single HAS_MUTAGEN config i task env w).1.2
    = match ffmpeg_result env with
      | Raised e => "Conversion error: " +:+ e
      | Exited returncode stderr =>
          if returncode =? 0 then "Conversion successful"
          else "FFmpeg error: " +:+ py_prefix 200 stderr
      end
  ∧ ∃ tail',
      frame i
        (progress_loop i env 0 progress_range
           (emit (log_message ("Converting: " +:+ basename (input_path task)) "info") w)).2
        (_convert_single HAS_MUTAGEN config i task env w).2
        (subprocess_run (ffmpeg_cmd config task) :: tail')
      ∧ Forall plain tail'.
Proof.
  intros Hmk Hfin. unfold _convert_single, succeeds. rewrite Hmk.
  destruct (progress_loop i env 0 progress_range _) as [fin w2].
  simpl in Hfin. subst fin. cbn [negb fst snd].
  set (spawn := subprocess_run (ffmpeg_cmd config task)).
  set (w3 := record spawn w2).
  assert (frame i w2 w3 [spawn]) as Hf3 by apply frame_record.
  destruct (ffmpeg_result env) as [e|returncode stderr]; cbn [fst snd].
  { split_and!; [done|done|]. by exists []. }
  destruct (returncode =? 0); cbn [fst snd].
  2:{ split_and!; [done|done|]. by exists []. }
  set (w4 := if get (extract_cover config) true && HAS_MUTAGEN
             then _extract_cover_art env (input_path task) (output_path task) w3
             else w3).
  assert (∃ evs, frame i w3 w4 evs ∧ Forall plain evs) as (evs4 & Hf4 & Hp4).
  { subst w4. destruct (get (extract_cover config) true && HAS_MUTAGEN).
    - destruct (extract_cover_art_spec i env (input_path task) (output_path task) w3)
        as (evs & ? & ? & _). eauto.
    - exists []. split; [apply frame_refl|done]. }
  set (w5 := if get (preserve_metadata config) true && HAS_MUTAGEN
             then _preserve_metadata HAS_MUTAGEN env (input_path task) (output_path task) w4
             else w4).
  assert (∃ evs, frame i w4 w5 evs ∧ Forall plain evs) as (evs5 & Hf5 & Hp5).
  { subst w5. destruct (get (preserve_metadata config) true && HAS_MUTAGEN).
    - destruct (preserve_metadata_spec HAS_MUTAGEN i env (input_path task)
                  (output_path task) w4) as (evs & ? & ? & _). eauto.
    - exists []. split; [apply frame_refl|done]. }
  split_and!; [done|done|]. exists (evs4 ++ evs5). split; [|by apply Forall_app].
  apply (frame_trans _ _ _ _ [spawn] _ Hf3). by eapply frame_trans.
Qed.

(** Whether the progress loop runs to its end depends on the stop alone. *)
Lemma progress_loop_finishes i env w :
  is_running w = true →
  (∀ j, stop_request env = Some j → (11 ≤ j)%nat) →
  (progress_loop i env 0 progress_range w).1 = true
  ∧ frame i w (progress_loop i env 0 progress_range w).2
          ((λ p, progress_updated i p 0) <$> progress_range).
Proof.
  intros Hw Hlate. destruct (stop_request env) as [j|] eqn:Hstop.
  - destruct (progress_loop_stop_at i env j progress_range 0 w Hstop Hw)
      as (Hf & Hfin & _).
    specialize (Hlate j eq_refl). rewrite Nat.sub_0_r in Hf, Hfin.
    rewrite take_ge in Hf by (simpl; lia).
    split; [|done]. rewrite Hfin. apply bool_decide_eq_true_2. simpl. lia.
  - destruct (progress_loop_spec i env progress_range 0 w)
      as (qs & Hf & _ & _ & Hall).
    destruct (Hall Hstop Hw) as [Hfin ->]. done.
Qed.

Lemma py_len_app (a b : string) : py_len (a +:+ b) = (py_len a + py_len b)%nat.
Proof.
  induction a as [|c a IH]; simpl; [done|].
  destruct (utf8_continuation c); simpl; by rewrite IH.
Qed.

Lemma py_prefix_len s : ∀ n, (py_len (py_prefix n s) ≤ n)%nat.
Proof.
  induction s as [|c s IH]; intros n; simpl; [lia|].
  destruct (utf8_continuation c) eqn:Hc; simpl.
  - rewrite Hc. apply IH.
  - destruct n as [|n]; simpl; [lia|]. rewrite Hc. specialize (IH n). lia.
Qed.

Lemma py_prefix_is_prefix s : ∀ n, String.prefix (py_prefix n s) s = true.
Proof.
  induction s as [|c s IH]; intros n; simpl; [done|].
  destruct (utf8_continuation c); simpl.
  - destruct (Ascii.ascii_dec c c); [apply IH|done].
  - destruct n as [|n]; simpl; [done|].
    destruct (Ascii.ascii_dec c c); [apply IH|done].
Qed.

(** Text shorter than the cut is kept whole. *)
Lemma py_prefix_short s : ∀ n, (py_len s ≤ n)%nat → py_prefix n s = s.
Proof.
  induction s as [|c s IH]; intros n; simpl; [done|].
  destruct (utf8_continuation c); intros Hn.
  - by rewrite IH.
  - destruct n as [|n]; [lia|]. rewrite IH; [done|lia].
Qed.

(** A stop that lands during the progress loop: the loop has signalled the
    first [j] percentages, ffmpeg is never spawned, and the verdict is
    "Conversion cancelled". *)
Theorem convert_single_cancelled i task env w j :
  stop_request env = Some j → (j < 11)%nat →
  is_running w = true → makedirs_error env = None →
  (_convert_single HAS_MUTAGEN config i task env w).1 = (false, "Conversion cancelled")
  ∧ trace (_convert_single HAS_MUTAGEN config i task env w).2
    = trace w
      ++ log_message ("Converting: " +:+ basename (input_path task)) "info"
      :: ((λ p, progress_updated i p 0) <$> take j progress_range)
  ∧ spawned (trace (_convert_single HAS_MUTAGEN config i task env w).2)
    = spawned (trace w)
  ∧ is_running (_convert_single HAS_MUTAGEN config i task env w).2 = false.
Proof.
  intros Hstop Hj Hw Hmk. unfold _convert_single. rewrite Hmk.
  set (line := log_message ("Converting: " +:+ basename (input_path task)) "info").
  destruct (progress_loop_stop_at i env j progress_range 0 (emit line w) Hstop)
    as (Hf & Hfin & Hrun); [by rewrite is_running_emit|].
  rewrite Nat.sub_0_r in Hf, Hfin, Hrun.
  rewrite bool_decide_eq_false_2 in Hfin, Hrun by (simpl; lia).
  destruct (progress_loop i env 0 progress_range (emit line w)) as [fin w2].
  simpl in Hf, Hfin, Hrun. subst fin. cbn [negb fst snd].
  assert (trace w2 = trace w ++ line
                       :: ((λ p, progress_updated i p 0) <$> take j progress_range))
    as Htrace.
  { rewrite (frame_trace _ _ _ _ Hf),
      (frame_trace _ _ _ _ (frame_emit i line w I)), <- app_assoc. done. }
  split_and!; [done|done| |done].
  rewrite Htrace. clear. induction (trace w) as [|e evs IH]; simpl.
  - induction (take j progress_range) as [|q qs IHq]; [done|apply IHq].
  - destruct e; simpl; by rewrite ?IH.
Qed.


(** Unless a stop lands during the progress loop, the conversion in flight
    is not interrupted: all of 0, 10, ..., 100 is signalled, ffmpeg is
    spawned with the command line of the task, and what ffmpeg does is the
    verdict, even when [stop()] is called while it runs. *)
Theorem convert_single_not_interrupted i task env w :
  is_running w = true → makedirs_error env = None →
  (∀ j, stop_request env = Some j → (11 ≤ j)%nat) →
  (_convert_single HAS_MUTAGEN config i task env w).1.1 = succeeds env
  ∧ ∃ tail',
      trace (_convert_single HAS_MUTAGEN config i task env w).2
      = trace w
        ++ log_message ("Converting: " +:+ basename (input_path task)) "info"
        :: ((λ p, progress_updated i p 0) <$> progress_range)
        ++ subprocess_run (ffmpeg_cmd config task) :: tail'
      ∧ Forall plain tail'.
Proof.
  intros Hw Hmk Hlate.
  set (line := log_message ("Converting: " +:+ basename (input_path task)) "info").
  destruct (progress_loop_finishes i env (emit line w)) as [Hfin Hf];
    [by rewrite is_running_emit|done|].
  destruct (convert_single_loop_done i task env w Hmk Hfin)
    as (Hres & _ & tail' & Hf' & Htail').
  split; [done|]. exists tail'. split; [|done]. subst line.
  rewrite (frame_trace _ _ _ _ Hf'), (frame_trace _ _ _ _ Hf),
    (frame_trace _ _ _ _ (frame_emit i (log_message _ _) w I)).
  by rewrite <- !app_assoc.
Qed.


(** When ffmpeg exits with a code other than 0, the message of the verdict
    is "FFmpeg error: " followed by the first 200 characters of what ffmpeg
    wrote to stderr: 214 characters at most, and all of stderr when that has
    no more than 200 characters. *)
Theorem ffmpeg_error_message_bounded i task env w returncode stderr :
  is_running w = true → makedirs_error env = None →
  (∀ j, stop_request env = Some j → (11 ≤ j)%nat) →
  ffmpeg_result env = Exited returncode stderr → returncode ≠ 0 →
  (_convert_single HAS_MUTAGEN config i task env w).1
  = (false, "FFmpeg error: " +:+ py_prefix 200 stderr)
  ∧ (py_len (_convert_single HAS_MUTAGEN config i task env w).1.2 ≤ 214)%nat
  ∧ String.prefix (py_prefix 200 stderr) stderr = true
  ∧ ((py_len stderr ≤ 200)%nat →
       (_convert_single HAS_MUTAGEN config i task env w).1.2
       = "FFmpeg error: " +:+ stderr).
Proof.
  intros Hw Hmk Hlate Hres Hrc.
  set (line := log_message ("Converting: " +:+ basename (input_path task)) "info").
  destruct (progress_loop_finishes i env (emit line w)) as [Hfin _];
    [by rewrite is_running_emit|done|].
  destruct (convert_single_loop_done i task env w Hmk Hfin) as (Hok & Hmsg & _).
  unfold succeeds in Hok. rewrite Hmk, Hres in Hok. rewrite Hres in Hmsg.
  assert ((returncode =? 0) = false) as Hne by (by apply Z.eqb_neq).
  rewrite Hne in Hok, Hmsg.
  destruct (_convert_single HAS_MUTAGEN config i task env w) as [[ok msg] w'].
  cbn [fst snd] in *. subst ok msg.
  split_and!; [done| |apply py_prefix_is_prefix|].
  - rewrite py_len_app. pose proof (py_prefix_len stderr 200) as Hlen.
    change (py_len "FFmpeg error: ") with 14%nat. lia.
  - intros Hshort. by rewrite py_prefix_short.
Qed.


(** *** The whole run, in any environment *)

(** Whatever the tasks meet and whenever the user stops the worker, [run]
    handles an initial stretch of the list and nothing else: for each task
    of the stretch [conversion_started] and [task_completed] are emitted
    once, in list order, and the task ends [completed] or [failed]; the
    tasks behind the stretch are exactly as they were. The stretch is
    shorter than the list only if the worker was stopped. *)
Theorem run_handles_initial_stretch (ts : list ConversionTask) (world : nat → TaskEnv) :
  ∃ m, (m ≤ length ts)%nat
    ∧ length (tasks (run HAS_MUTAGEN config world (init ts))) = length ts
    ∧ started_of (trace (run HAS_MUTAGEN config world (init ts))) = seq 0 m
    ∧ completed_of (trace (run HAS_MUTAGEN config world (init ts))) = seq 0 m
    ∧ (∀ j, (j < m)%nat →
         ∃ t, tasks (run HAS_MUTAGEN config world (init ts)) !! j = Some t
              ∧ terminal (status t) = true)
    ∧ (∀ j, (m ≤ j)%nat →
         tasks (run HAS_MUTAGEN config world (init ts)) !! j = ts !! j)
    ∧ ((m < length ts)%nat →
         is_running (run HAS_MUTAGEN config world (init ts)) = false).
Proof.
  unfold run. change (tasks (init ts)) with ts.
  destruct (run_from_processed world ts 0 (init ts))
    as (m & evs & Hm & Htr & Hst & Hco & Hl & Hout & Hper & Hdown); [done|].
  simpl in Htr, Hl, Hout, Hper. exists m. rewrite Htr. split_and!; try done.
  - intros j Hj. destruct (lookup_lt_is_Some_2 ts j) as [t0 Ht0]; [lia|].
    destruct (Hper j t0) as (t & success & message & Ht & Hp & _); [lia|done|].
    exists t. split; [done|]. destruct Hp as (_ & _ & _ & -> & _).
    by destruct success.
  - intros j Hj. apply Hout. lia.
Qed.

(** The worker never changes a task's input path, output path or file
    size, whether it handles the task or not. *)
Theorem run_keeps_paths_and_size
    (ts : list ConversionTask) (world : nat → TaskEnv) (j : nat) (t0 : ConversionTask) :
  ts !! j = Some t0 →
  ∃ t, tasks (run HAS_MUTAGEN config world (init ts)) !! j = Some t
       ∧ input_path t = input_path t0
       ∧ output_path t = output_path t0
       ∧ file_size t = file_size t0.
Proof.
  intros Ht0. unfold run. change (tasks (init ts)) with ts.
  destruct (run_from_processed world ts 0 (init ts))
    as (m & evs & Hm & Htr & Hst & Hco & Hl & Hout & Hper & Hdown); [done|].
  simpl in Hout, Hper. destruct (decide (j < m)%nat) as [Hj|Hj].
  - destruct (Hper j t0) as (t & success & message & Ht & Hp & _); [lia|done|].
    exists t. destruct Hp as (? & ? & ? & _). by split_and!.
  - exists t0. rewrite Hout by lia. by split_and!.
Qed.

(** A task the worker has started carries, when [run] returns, the verdict
    that [task_completed] announced for it: [completed] with an empty error
    message, or [failed] with the message of the signal; and it carries the
    two clock readings of its pass. *)
Theorem started_task_outcome
    (ts : list ConversionTask) (world : nat → TaskEnv) (j : nat) :
  j ∈ started_of (trace (run HAS_MUTAGEN config world (init ts))) →
  ∃ t success message,
    tasks (run HAS_MUTAGEN config world (init ts)) !! j = Some t
    ∧ task_completed j success message ∈ trace (run HAS_MUTAGEN config world (init ts))
    ∧ status t = (if success then completed else failed)
    ∧ error_message t = (if success then "" else message)
    ∧ start_time t = Some (clock_start (world j))
    ∧ end_time t = Some (clock_end (world j)).
Proof.
  unfold run. change (tasks (init ts)) with ts.
  destruct (run_from_processed world ts 0 (init ts))
    as (m & evs & Hm & Htr & Hst & Hco & Hl & Hout & Hper & Hdown); [done|].
  simpl in Htr, Hper. rewrite Htr, Hst. intros Hj.
  apply elem_of_seq in Hj.
  destruct (lookup_lt_is_Some_2 ts j) as [t0 Ht0]; [lia|].
  destruct (Hper j t0) as (t & success & message & Ht & Hp & Hin); [lia|done|].
  exists t, success, message. destruct Hp as (_ & _ & _ & ? & ? & ? & ?).
  by split_and!.
Qed.

(** *** What the window makes of the statuses *)

Lemma all_done_sum (l : list ConversionTask) :
  all_done l = true → (successful l + failures l = length l)%nat.
Proof.
  unfold all_done, successful, failures.
  induction l as [|t l IH]; [done|]. cbn [forallb]. intros H.
  apply andb_true_iff in H as [Ht Hl]. specialize (IH Hl).
  rewrite !filter_cons. destruct (status t) eqn:Hs; try done;
    repeat case_decide; try done; simpl; lia.
Qed.

(** Whenever [_on_task_completed] finds all tasks done and calls
    [_on_conversion_finished], the two numbers reported there add up to the
    number of tasks; as long as a task is pending or converting they add up
    to less. *)
Theorem all_done_counts (l : list ConversionTask) :
  all_done l = true ↔ (successful l + failures l = length l)%nat.
Proof.
  split; [apply all_done_sum|].
  assert (∀ l', (successful l' + failures l' ≤ length l')%nat) as Hle.
  { unfold successful, failures. induction l' as [|t l' IH]; [done|].
    rewrite !filter_cons. destruct (status t); repeat case_decide; try done;
      simpl; lia. }
  induction l as [|t l IH]; [done|]. specialize (Hle l).
  unfold all_done, successful, failures in *.
  cbn [forallb length]. rewrite !filter_cons.
  destruct (status t) eqn:Hs; repeat case_decide; try done; simpl;
    intros Hsum; try lia; apply IH; lia.
Qed.

Lemma successful_by_position (f : nat → bool) (l : list ConversionTask) : ∀ k,
  (∀ i t, l !! i = Some t →
     status t = if f (k + i)%nat then completed else failed) →
  successful l = length (filter (λ i, f i = true) (seq k (length l)))
  ∧ all_done l = true.
Proof.
  unfold successful, all_done.
  induction l as [|t l IH]; intros k H; [done|].
  destruct (IH (S k)) as [IH1 IH2].
  { intros i t' Hi. replace (S k + i)%nat with (k + S i)%nat by lia. by apply H. }
  pose proof (H 0%nat t eq_refl) as Ht. rewrite Nat.add_0_r in Ht.
  cbn [length seq forallb]. rewrite !filter_cons, IH2, Ht.
  destruct (f k); repeat case_decide; try done; simpl; by rewrite ?IH1.
Qed.

(** After a run that nobody stops, all tasks are done, the tasks counted as
    successful are those whose directory could be made and whose ffmpeg
    exited with 0, and successful and failed add up to the batch. *)
Theorem unstopped_run_statistics (ts : list ConversionTask) (world : nat → TaskEnv) :
  (∀ i, stop_request (world i) = None) →
  all_done (tasks (run HAS_MUTAGEN config world (init ts))) = true
  ∧ successful (tasks (run HAS_MUTAGEN config world (init ts)))
    = length (filter (λ i, succeeds (world i) = true) (seq 0 (length ts)))
  ∧ (successful (tasks (run HAS_MUTAGEN config world (init ts)))
     + failures (tasks (run HAS_MUTAGEN config world (init ts))) = length ts)%nat.
Proof.
  intros Hnone. unfold run. change (tasks (init ts)) with ts.
  destruct (run_from_no_stop HAS_MUTAGEN config world ts 0 (init ts))
    as (evs & _ & Hl & _ & _ & _ & _ & Hper); [by auto|done|done|].
  simpl in Hl.
  destruct (successful_by_position (λ i, succeeds (world i))
              (tasks (run_from HAS_MUTAGEN config 0 ts world (init ts))) 0)
    as [Hs Hd].
  { intros i t Ht.
    destruct (lookup_lt_is_Some_2 ts i) as [t0 Ht0].
    { rewrite <- Hl. by eapply lookup_lt_Some. }
    destruct (Hper i t0 Ht0) as [(t' & Ht' & Hst) _].
    change (0 + i)%nat with i in *. by simplify_eq. }
  split_and!; [done|by rewrite Hs, Hl|].
  rewrite all_done_sum by done. done.
Qed.

(** While every task's progress lies between 0 and 100, so does the value
    of the overall bar, and it shows 100 exactly when every task is at
    100. *)
Theorem overall_progress_bounds (l : list ConversionTask) :
  Forall (λ t, 0 ≤ progress t ≤ 100) l →
  0 ≤ overall_progress l ≤ 100
  ∧ (l ≠ [] → (overall_progress l = 100 ↔ Forall (λ t, progress t = 100) l)).
Proof.
  intros Hl.
  assert (0 ≤ total_progress l ≤ 100 * Z.of_nat (length l)
          ∧ (total_progress l = 100 * Z.of_nat (length l)
             ↔ Forall (λ t, progress t = 100) l)) as (Hb & Hall).
  { induction Hl as [|t l Ht _ IH]; [by split|].
    destruct IH as (IHb & IHall). cbn [total_progress foldr length].
    fold (total_progress l). rewrite Nat2Z.inj_succ. split; [lia|].
    rewrite Forall_cons, <- IHall. lia. }
  destruct l as [|t l]; [done|]. unfold overall_progress.
  set (n := Z.of_nat (length (t :: l))) in *.
  assert (0 < n) as Hn by (unfold n; simpl; lia).
  rewrite Z.quot_div_nonneg by lia.
  split.
  - split; [apply Z.div_pos; lia|]. apply Z.div_le_upper_bound; lia.
  - intros _. rewrite <- Hall. split.
    + intros Hq. pose proof (Z.mul_div_le (total_progress (t :: l)) n Hn). lia.
    + intros ->. apply Z.div_mul. lia.
Qed.

End Outcomes.

Import ConversionWorker Run Outcome.

Lemma convert_single_cancelled_witness :
  (_convert_single true sample_config 0 sample_task_a env_stopped
     (init [sample_task_a])).1 = (false, "Conversion cancelled")
  ∧ trace (_convert_single true sample_config 0 sample_task_a env_stopped
             (init [sample_task_a])).2
    = [log_message "Converting: a.mp4" "info";
       progress_updated 0 0 0; progress_updated 0 10 0; progress_updated 0 20 0]
  ∧ spawned (trace (_convert_single true sample_config 0 sample_task_a env_stopped
                      (init [sample_task_a])).2) = []
  ∧ is_running (_convert_single true sample_config 0 sample_task_a env_stopped
                  (init [sample_task_a])).2 = false.
Proof.
  apply (convert_single_cancelled true sample_config 0 sample_task_a env_stopped
           (init [sample_task_a]) 3).
  - reflexivity.
  - lia.
  - reflexivity.
  - reflexivity.
Defined.

Lemma convert_single_not_interrupted_witness :
  (_convert_single true sample_config 0 sample_task_a
     (mkEnv None (Exited 0 "") None None (Some 11%nat) 10 20)
     (init [sample_task_a])).1.1 = true
  ∧ ∃ tail',
      trace (_convert_single true sample_config 0 sample_task_a
               (mkEnv None (Exited 0 "") None None (Some 11%nat) 10 20)
               (init [sample_task_a])).2
      = [] ++ log_message "Converting: a.mp4" "info"
        :: ((λ p, progress_updated 0 p 0) <$> progress_range)
        ++ subprocess_run (ffmpeg_cmd sample_config sample_task_a) :: tail'
      ∧ Forall plain tail'.
Proof.
  apply (convert_single_not_interrupted true sample_config 0 sample_task_a
           (mkEnv None (Exited 0 "") None None (Some 11%nat) 10 20)
           (init [sample_task_a])).
  - reflexivity.
  - reflexivity.
  - intros j [= <-]. lia.
Defined.

Lemma ffmpeg_error_message_bounded_witness :
  (_convert_single true sample_config 0 sample_task_a env_exit_text
     (init [sample_task_a])).1
  = (false, "FFmpeg error: " +:+ py_prefix 200 "vidéo.mp4: données invalides")
  ∧ (py_len (_convert_single true sample_config 0 sample_task_a env_exit_text
               (init [sample_task_a])).1.2 ≤ 214)%nat
  ∧ String.prefix (py_prefix 200 "vidéo.mp4: données invalides")
                  "vidéo.mp4: données invalides" = true
  ∧ ((py_len "vidéo.mp4: données invalides" ≤ 200)%nat →
       (_convert_single true sample_config 0 sample_task_a env_exit_text
          (init [sample_task_a])).1.2
       = "FFmpeg error: " +:+ "vidéo.mp4: données invalides").
Proof.
  apply (ffmpeg_error_message_bounded true sample_config 0 sample_task_a env_exit_text
           (init [sample_task_a]) 1 "vidéo.mp4: données invalides").
  - reflexivity.
  - reflexivity.
  - intros j Hj. discriminate Hj.
  - reflexivity.
  - lia.
Defined.

Lemma run_keeps_paths_and_size_witness :
  ∃ t, tasks (run true sample_config world_stop_first
                  (init [sample_task_a; sample_task_b])) !! 1%nat = Some t
       ∧ input_path t = input_path sample_task_b
       ∧ output_path t = output_path sample_task_b
       ∧ file_size t = file_size sample_task_b.
Proof.
  apply (run_keeps_paths_and_size true sample_config
           [sample_task_a; sample_task_b] world_stop_first 1 sample_task_b).
  reflexivity.
Defined.

Lemma started_task_outcome_witness :
  ∃ t success message,
    tasks (run true sample_config world_fail_first
               (init [sample_task_a; sample_task_b])) !! 0%nat = Some t
    ∧ task_completed 0 success message
        ∈ trace (run true sample_config world_fail_first
                     (init [sample_task_a; sample_task_b]))
    ∧ status t = (if success then completed else failed)
    ∧ error_message t = (if success then "" else message)
    ∧ start_time t = Some (clock_start (world_fail_first 0))
    ∧ end_time t = Some (clock_end (world_fail_first 0)).
Proof.
  apply (started_task_outcome true sample_config
           [sample_task_a; sample_task_b] world_fail_first 0).
  vm_compute. constructor.
Defined.


Lemma unstopped_run_statistics_witness :
  all_done (tasks (run true sample_config world_fail_first
                       (init [sample_task_a; sample_task_b]))) = true
  ∧ successful (tasks (run true sample_config world_fail_first
                           (init [sample_task_a; sample_task_b])))
    = length (filter (λ i, succeeds (world_fail_first i) = true) (seq 0 2))
  ∧ (successful (tasks (run true sample_config world_fail_first
                            (init [sample_task_a; sample_task_b])))
     + failures (tasks (run true sample_config world_fail_first
                            (init [sample_task_a; sample_task_b]))) = 2)%nat.
Proof.
  apply (unstopped_run_statistics true sample_config
           [sample_task_a; sample_task_b] world_fail_first).
  intros i. unfold world_fail_first. by case_bool_decide.
Defined.

Lemma overall_progress_bounds_witness :
  0 ≤ overall_progress [set_progress 100 sample_task_a; set_progress 30 sample_task_b] ≤ 100
  ∧ ([set_progress 100 sample_task_a; set_progress 30 sample_task_b] ≠ [] →
     (overall_progress [set_progress 100 sample_task_a; set_progress 30 sample_task_b] = 100
      ↔ Forall (λ t, progress t = 100)
          [set_progress 100 sample_task_a; set_progress 30 sample_task_b])).
Proof.
  apply (overall_progress_bounds
           [set_progress 100 sample_task_a; set_progress 30 sample_task_b]).
  repeat constructor; simpl; lia.
Defined.

(** ** More on the command line *)

(** Whatever the configuration holds, the command line is
    [ffmpeg -i <input> -codec:a libmp3lame -b:a <bitrate> -q:a 2], some
    flags among which the overwrite flag [-y], and the output path last; a
    missing bitrate is 192k. *)
Theorem ffmpeg_cmd_shape (config : Config) (task : ConversionTask) :
  ∃ flags, ffmpeg_cmd config task = cmd_with (bitrate config) task flags
           ∧ "-y" ∈ flags.
Proof.
  set (volume := "volume=" +:+ get (target_db config) "-1.0" +:+ "dB").
  exists (match get (preserve_metadata config) true, get (normalize config) false with
          | true, true =>
              ["-y"; "-map_metadata"; "0"; "-id3v2_version"; "-af"; volume; "3"]
          | true, false => ["-y"; "-map_metadata"; "0"; "-id3v2_version"; "3"]
          | false, true => ["-af"; volume; "-y"]
          | false, false => ["-y"]
          end).
  subst volume.
  destruct config as [b [[|]|] e [[|]|] d]; (split; [reflexivity|]);
    simpl; rewrite ?elem_of_cons; auto 10.
Qed.

(** The dictionary that [_start_conversion] hands to the worker never asks
    for normalisation: the command line of a run started from the window has
    no audio filter, and the metadata flags, when the box is checked, stand
    each before its value, right before the output path. *)
Theorem gui_command_line (bitrate_combo : string)
    (preserve_metadata_cb extract_cover_cb : bool) (task : ConversionTask) :
  ffmpeg_cmd (MainWindow.worker_config bitrate_combo preserve_metadata_cb extract_cover_cb)
             task
  = ["ffmpeg"; "-i"; input_path task; "-codec:a"; "libmp3lame";
     "-b:a"; bitrate_combo; "-q:a"; "2"; "-y"]
    ++ (if preserve_metadata_cb
        then ["-map_metadata"; "0"; "-id3v2_version"; "3"] else [])
    ++ [output_path task].
Proof. by destruct preserve_metadata_cb. Qed.

(** ** More on the task list of the window *)

Lemma add_all_listed fs files w :
  (∀ file, file ∈ files → file ∈ MainWindow.file_list w) →
  MainWindow.add_all fs files w = Some w.
Proof.
  induction files as [|file files IH]; intros H; simpl; [done|].
  unfold MainWindow._add_file_to_list.
  rewrite bool_decide_eq_true_2 by (apply H; left).
  apply IH. intros f Hf. apply H. by right.
Qed.

Lemma drop_event_state
    (fs : gmap string N) (files : list string) (w : MainWindow.t) :
  MainWindow.dropEvent fs files w
  = Some (Session.with_file_list (MainWindow.file_list w ++ files) w).
Proof.
  unfold MainWindow.dropEvent. apply add_all_listed.
  intros file Hin. simpl. apply elem_of_app. by right.
Qed.

(** Files dropped on the list become items of the list and nothing else:
    the widget has added the items before the window looks for duplicates,
    so no task is made for them, and adding such a file later through the
    dialogs is turned down as a duplicate. *)
Theorem drop_event_makes_no_task
    (fs fs' : gmap string N) (files : list string) (w : MainWindow.t) :
  ∃ w', MainWindow.dropEvent fs files w = Some w'
        ∧ MainWindow.tasks w' = MainWindow.tasks w
        ∧ MainWindow.file_list w' = MainWindow.file_list w ++ files
        ∧ ∀ file, file ∈ files →
            MainWindow._add_file_to_list fs' file w' = Some w'.
Proof.
  eexists. split; [apply drop_event_state|]. split_and!; [done|done|].
  intros file Hin. unfold MainWindow._add_file_to_list.
  rewrite bool_decide_eq_true_2; [done|]. simpl. apply elem_of_app. by right.
Qed.

Lemma add_file_no_dup fs p w w' :
  MainWindow.tasks_listed w → NoDup (input_path <$> MainWindow.tasks w) →
  MainWindow._add_file_to_list fs p w = Some w' →
  NoDup (input_path <$> MainWindow.tasks w').
Proof.
  unfold MainWindow._add_file_to_list, MainWindow.ConversionTask_init.
  intros Hl Hn H. case_bool_decide as Hp; [by simplify_eq|].
  destruct (with_suffix p ".mp3") as [out|]; [|done].
  injection H as <-. simpl. rewrite fmap_app. simpl.
  apply NoDup_app. split_and!; [done| |apply NoDup_singleton].
  intros x Hx Hx'. apply list_elem_of_singleton in Hx' as ->.
  apply list_elem_of_fmap in Hx as (task & -> & Hin). by apply Hp, Hl.
Qed.

(** In every state the window reaches, no two tasks have the same input
    path, and every task's input path is an item of the list. *)
Theorem reachable_tasks_distinct (w : MainWindow.t) :
  Session.reachable w →
  NoDup (input_path <$> MainWindow.tasks w) ∧ MainWindow.tasks_listed w.
Proof.
  destruct tasks_listed_invariant as (Hnew & Hadd & Hdrop & Hclear & Hstart & Hfin).
  induction 1 as [|fs p w w' _ [IHn IHl] H|fs files w w' _ [IHn IHl] H
                  |reply w _ [IHn IHl]|reply w _ [IHn IHl]
                  |ok dir fmt w w' _ [IHn IHl] H|w _ [IHn IHl]|l w _ [IHn IHl] H].
  - split; [apply NoDup_nil_2|done].
  - split; [by eapply add_file_no_dup|by eapply Hadd].
  - rewrite drop_event_state in H. injection H as <-. split; [done|].
    intros task Hin. simpl. apply elem_of_app. left. by apply IHl.
  - unfold MainWindow.clear_list_btn_clicked.
    destruct (MainWindow.clear_list_btn w); [|done].
    split; [|by apply Hclear]. destruct reply; [apply NoDup_nil_2|done].
  - split; [|by apply Hclear]. destruct reply; [apply NoDup_nil_2|done].
  - split; [|by eapply Hstart]. unfold MainWindow._start_conversion in H.
    case_bool_decide; [by simplify_eq|]. destruct ok; [|done].
    injection H as <-. simpl. rewrite <- list_fmap_compose.
    by rewrite (list_fmap_ext _ input_path (MainWindow.tasks w))
      by (by intros ? []).
  - done.
  - simpl. rewrite H. split; [done|].
    intros task Hin. simpl in *.
    assert (input_path task ∈ input_path <$> l) as Hp by (by apply list_elem_of_fmap_2).
    rewrite H in Hp. apply list_elem_of_fmap in Hp as (task' & -> & Hin').
    by apply IHl.
Qed.

Lemma split_slash_no_slash s :
  Forall (λ x, has_char "/" x = false) (PurePosixPath.split_slash s).
Proof.
  induction s as [|c s IH]; simpl; [by repeat constructor|].
  destruct (Ascii.eqb c "/") eqn:Hc.
  - by constructor.
  - destruct (PurePosixPath.split_slash s) as [|x xs].
    + constructor; [|constructor].
      cbn [has_char]. by rewrite Ascii.eqb_sym, Hc.
    + apply Forall_cons in IH as [Hx Hxs]. constructor; [|done].
      cbn [has_char]. by rewrite Ascii.eqb_sym, Hc.
Qed.

Lemma name_no_slash p :
  has_char "/" (PurePosixPath.name (PurePosixPath.parse p)) = false.
Proof.
  unfold PurePosixPath.name, PurePosixPath.parse.
  destruct (PurePosixPath.splitroot p) as [root rel]. simpl.
  destruct (last _) as [x|] eqn:Hlast; [|done]. simpl.
  apply last_Some_elem_of, list_elem_of_filter in Hlast as [_ Hin].
  pose proof (split_slash_no_slash rel) as Hall.
  rewrite Forall_forall in Hall. by apply Hall.
Qed.

Lemma split_last_dot_fst c name :
  has_char c name = false → has_char c (split_last_dot name).1 = false.
Proof.
  induction name as [|c' name IH]; simpl; [done|].
  intros H. apply orb_false_iff in H as [Hc Hname].
  destruct (Ascii.eqb c' "." && negb (has_char "." name)); [done|].
  destruct (split_last_dot name) as [a b]. simpl in *.
  rewrite Hc. by apply IH.
Qed.

Lemma path_stem_no_slash name :
  has_char "/" name = false → has_char "/" (path_stem name) = false.
Proof.
  intros H. unfold path_stem.
  pose proof (split_last_dot_fst "/" name H) as Ha.
  destruct (split_last_dot name) as [a b]. simpl in Ha.
  by destruct (negb (bool_decide (a = "")) && (1 <? String.length b)%nat).
Qed.

Lemma no_slash_not_absolute x rest :
  has_char "/" x = false → String.prefix "/" (x +:+ "." +:+ rest) = false.
Proof.
  destruct x as [|c x]; [done|]. cbn [has_char]. intros H.
  apply orb_false_iff in H as [Hc _].
  change (String c x +:+ "." +:+ rest) with (String c (x +:+ "." +:+ rest)).
  cbn [String.prefix].
  destruct (Ascii.ascii_dec "/" c) as [<-|]; [|done].
  by rewrite Ascii.eqb_refl in Hc.
Qed.

Lemma string_app_inv_tail (x y s : string) : x +:+ s = y +:+ s → x = y.
Proof.
  assert (∀ a b : string, String.length (a +:+ b)
                          = (String.length a + String.length b)%nat) as Hlen.
  { intros a b. induction a as [|c a IH]; simpl; [done|]. by rewrite IH. }
  revert y. induction x as [|c x IH]; intros [|d y] H.
  - done.
  - apply (f_equal String.length) in H. rewrite !Hlen in H. simpl in H. lia.
  - apply (f_equal String.length) in H. rewrite !Hlen in H. simpl in H. lia.
  - injection H as -> H. f_equal. by apply IH.
Qed.

Lemma path_join_inj a x y :
  String.prefix "/" x = false → String.prefix "/" y = false →
  path_join a x = path_join a y → x = y.
Proof.
  unfold path_join. intros -> ->.
  destruct (bool_decide (a = "")
            || bool_decide (String.substring (String.length a - 1) 1 a = "/"));
    intros H.
  - by apply (inj (String.app a)) in H.
  - apply (inj (String.app a)) in H. by apply (inj (String.app "/")) in H.
Qed.

(** [_start_conversion] names every output after the stem of its input
    alone: two tasks of a batch are given the same output path exactly when
    their input paths have the same stem, whatever their folders and their
    extensions. *)
Theorem same_output_iff_same_stem (dir fmt : string) (w w' : MainWindow.t)
    (i j : nat) (t1 t2 : ConversionTask) :
  MainWindow._start_conversion true dir fmt w = Some w' →
  MainWindow.tasks w' !! i = Some t1 →
  MainWindow.tasks w' !! j = Some t2 →
  output_path t1 = output_path t2
  ↔ PurePosixPath.stem (PurePosixPath.parse (input_path t1))
    = PurePosixPath.stem (PurePosixPath.parse (input_path t2)).
Proof.
  unfold MainWindow._start_conversion. intros H H1 H2.
  case_bool_decide as Hlen.
  - simplify_eq. by destruct (MainWindow.tasks w').
  - simpl in H. injection H as <-. simpl in H1, H2.
    rewrite list_lookup_fmap in H1, H2.
    destruct (MainWindow.tasks w !! i) as [a|]; [|done].
    destruct (MainWindow.tasks w !! j) as [b|]; [|done].
    simpl in H1, H2. simplify_eq. simpl. split.
    + intros Hout. apply path_join_inj in Hout.
      * by apply string_app_inv_tail in Hout.
      * apply no_slash_not_absolute, path_stem_no_slash, name_no_slash.
      * apply no_slash_not_absolute, path_stem_no_slash, name_no_slash.
    + by intros ->.
Qed.

(** ** More on loading the settings *)

Lemma dict_get_None k d : k ∉ keys d → dict_get k d = None.
Proof.
  induction d as [|[k' v] d IH]; [done|]. simpl. intros H.
  apply not_elem_of_cons in H as [Hne Hd].
  rewrite bool_decide_eq_false_2 by congruence. by apply IH.
Qed.

Lemma hasattr_field config name :
  name ∈ AppConfig.field_names → AppConfig.hasattr config name = true.
Proof.
  intros H. unfold AppConfig.hasattr.
  rewrite (bool_decide_eq_true_2 (name ∈ AppConfig.field_names)) by done.
  by rewrite orb_true_r.
Qed.

Lemma load_items_overrides_inst items : ∀ config name,
  NoDup (keys items) →
  "__dict__" ∉ keys items → "__class__" ∉ keys items → "__weakref__" ∉ keys items →
  name ∈ AppConfig.field_names →
  dict_get name (AppConfig.inst (Settings.load_items items config))
  = match dict_get name items with
    | Some v => Some v
    | None => dict_get name (AppConfig.inst config)
    end.
Proof.
  induction items as [|[key value] rest IH]; intros config name Hnd Hd Hc Hw Hname;
    [done|].
  simpl in Hnd, Hd, Hc, Hw. apply NoDup_cons in Hnd as [Hkey Hnd].
  apply not_elem_of_cons in Hd as [Hd1 Hd2].
  apply not_elem_of_cons in Hc as [Hc1 Hc2].
  apply not_elem_of_cons in Hw as [Hw1 Hw2].
  cbn [Settings.load_items dict_get].
  destruct (AppConfig.hasattr config key) eqn:Hhas.
  - unfold AppConfig.setattr.
    rewrite !bool_decide_eq_false_2 by congruence.
    rewrite IH by done. cbn [AppConfig.inst].
    destruct (bool_decide_reflect (key = name)) as [->|Hne].
    + by rewrite dict_get_None, dict_get_set_eq.
    + by rewrite dict_get_set_ne.
  - rewrite bool_decide_eq_false_2.
    + by apply IH.
    + intros ->. by rewrite hasattr_field in Hhas.
Qed.

(** Loading a document with distinct keys, none of them [__dict__],
    [__class__] or [__weakref__]: a field the document mentions gets the
    document's value, of whatever type, and a field it does not mention
    keeps the value it had. *)
Theorem load_items_overrides (converted_audio : string) (items : pydict)
    (config : AppConfig.t) (name : string) :
  NoDup (keys items) →
  "__dict__" ∉ keys items → "__class__" ∉ keys items → "__weakref__" ∉ keys items →
  name ∈ AppConfig.field_names →
  AppConfig.getattr converted_audio
    (Settings._load_settings (Document (PDict items)) config) name
  = match dict_get name items with
    | Some v => Some v
    | None => AppConfig.getattr converted_audio config name
    end.
Proof.
  intros Hnd Hd Hc Hw Hname. unfold AppConfig.getattr. simpl.
  rewrite load_items_overrides_inst by done.
  by destruct (dict_get name items).
Qed.

(** A document none of whose keys names an attribute of the configuration
    leaves it as it is. *)
Theorem load_items_unknown_only (items : pydict) (config : AppConfig.t) :
  Forall (λ key, AppConfig.hasattr config key = false) (keys items) →
  Settings._load_settings (Document (PDict items)) config = config.
Proof.
  simpl. induction items as [|[key value] rest IH]; [done|].
  intros H. apply Forall_cons in H as [Hkey Hrest]. simpl in Hkey.
  simpl. rewrite Hkey. by apply IH.
Qed.

Lemma hasattr_dunder_class config : AppConfig.hasattr config "__class__" = true.
Proof.
  unfold AppConfig.hasattr.
  assert (bool_decide ("__class__" ∈ AppConfig.class_attrs) = true) as ->
    by reflexivity.
  by rewrite orb_true_r.
Qed.

(** Loading stops at a [__class__] key: [setattr] refuses it, the bare
    [except] swallows the error, and the keys that follow in the document
    are never applied. *)
Theorem load_stops_at_refused_key (before after : pydict) (value : pyval)
    (config : AppConfig.t) :
  Settings._load_settings
    (Document (PDict (before ++ ("__class__", value) :: after))) config
  = Settings._load_settings (Document (PDict before)) config.
Proof.
  simpl. revert config. induction before as [|[key v] rest IH]; intros config; simpl.
  - by rewrite hasattr_dunder_class.
  - destruct (AppConfig.hasattr config key); [|apply IH].
    destruct (AppConfig.setattr config key v); [apply IH|done].
Qed.

(** ** The settings dialog *)

(** "Restore Defaults" followed by "Apply" or "OK" puts a configuration
    that holds its nine fields back to [AppConfig()], whatever the dialog
    and the configuration held before. *)
Theorem restore_defaults_then_save (converted_audio : string)
    (d : SettingsDialog.t) (config : AppConfig.t) :
  keys (AppConfig.inst config) = AppConfig.field_names →
  SettingsDialog._save_settings (SettingsDialog._restore_defaults converted_audio d) config
  = AppConfig.new converted_audio.
Proof.
  destruct config as [inst]. unfold keys. simpl. intros H.
  do 9 (destruct inst as [|[? ?] inst]; [discriminate H|]).
  destruct inst; [|discriminate H].
  simpl in H. injection H as -> -> -> -> -> -> -> -> ->.
  reflexivity.
Qed.

Lemma reachable_tasks_distinct_witness :
  NoDup (input_path <$> MainWindow.tasks sample_window)
  ∧ MainWindow.tasks_listed sample_window.
Proof.
  apply (reachable_tasks_distinct sample_window).
  apply (Session.reach_add sample_fs "/videos/a.mp4" MainWindow.new sample_window).
  - apply Session.reach_new.
  - reflexivity.
Defined.

Lemma same_output_iff_same_stem_witness :
  output_path (set_output_path "/home/u/ConvertedAudio/clip.mp3"
                 (mkTask "/holiday/clip.mp4" "/holiday/clip.mp3" pending 0 "" None None 100))
  = output_path (set_output_path "/home/u/ConvertedAudio/clip.mp3"
                   (mkTask "/work/clip.avi" "/work/clip.mp3" pending 0 "" None None 200))
  ↔ PurePosixPath.stem (PurePosixPath.parse "/holiday/clip.mp4")
    = PurePosixPath.stem (PurePosixPath.parse "/work/clip.avi").
Proof.
  apply (same_output_iff_same_stem sample_home "mp3" sample_twins
           (MainWindow.mk
              [set_output_path "/home/u/ConvertedAudio/clip.mp3"
                 (mkTask "/holiday/clip.mp4" "/holiday/clip.mp3" pending 0 "" None None 100);
               set_output_path "/home/u/ConvertedAudio/clip.mp3"
                 (mkTask "/work/clip.avi" "/work/clip.mp3" pending 0 "" None None 200)]
              ["/holiday/clip.mp4"; "/work/clip.avi"] 2 (Some true)
              false true true false false false)
           0 1).
  - reflexivity.
  - reflexivity.
  - reflexivity.
Defined.

Lemma load_items_overrides_witness :
  AppConfig.getattr sample_home
    (Settings._load_settings
       (Document (PDict [("theme", PStr "light"); ("bogus", PInt 1)]))
       (AppConfig.new sample_home)) "theme"
  = match dict_get "theme" [("theme", PStr "light"); ("bogus", PInt 1)] with
    | Some v => Some v
    | None => AppConfig.getattr sample_home (AppConfig.new sample_home) "theme"
    end.
Proof.
  apply (load_items_overrides sample_home
           [("theme", PStr "light"); ("bogus", PInt 1)]
           (AppConfig.new sample_home) "theme").
  - simpl. apply NoDup_cons. split; [not_in_list|].
    apply NoDup_cons. split; [not_in_list|apply NoDup_nil_2].
  - simpl. not_in_list.
  - simpl. not_in_list.
  - simpl. not_in_list.
  - unfold AppConfig.field_names. do 5 right. left.
Defined.

Lemma load_items_unknown_only_witness :
  Settings._load_settings
    (Document (PDict [("bogus", PInt 1); ("colour", PStr "red")]))
    (AppConfig.new sample_home)
  = AppConfig.new sample_home.
Proof.
  apply (load_items_unknown_only [("bogus", PInt 1); ("colour", PStr "red")]
           (AppConfig.new sample_home)).
  simpl. repeat constructor.
Defined.

Lemma restore_defaults_then_save_witness :
  SettingsDialog._save_settings
    (SettingsDialog._restore_defaults sample_home sample_dialog) sample_settings
  = AppConfig.new sample_home.
Proof.
  apply (restore_defaults_then_save sample_home sample_dialog sample_settings).
  reflexivity.
Defined.

Lemma unstopped_task_ends_at_100_witness :
  ∃ t, tasks (run true sample_config world_fail_first
                  (init [sample_task_a; sample_task_b])) !! 0%nat = Some t
       ∧ progress t = 100
       ∧ status t = if succeeds (world_fail_first 0) then completed else failed.
Proof.
  apply (unstopped_task_ends_at_100 true sample_config
           [sample_task_a; sample_task_b] world_fail_first 0).
  - intros i. unfold world_fail_first. by case_bool_decide.
  - simpl. lia.
  - reflexivity.
Defined.

Lemma clear_button_disabled_during_run_witness :
  MainWindow.running sample_window_running = true
  ∧ MainWindow.clear_list_btn_clicked MainWindow.Yes sample_window_running
    = sample_window_running.
Proof.
  apply (clear_button_disabled_during_run sample_home "mp3" sample_window
           sample_window_running MainWindow.Yes).
  - discriminate.
  - reflexivity.
Defined.

(** ** Warnings and repeated additions *)

(** What goes wrong while the cover art is extracted or the tags are copied
    is logged and nothing more: in runs that nobody stops, two environments
    that agree on [os.makedirs] and on ffmpeg leave every task with the same
    status. *)
Theorem warnings_not_fatal (HAS_MUTAGEN : bool) (config : Config)
    (ts : list ConversionTask) (world world' : nat → TaskEnv) :
  (∀ i, stop_request (world i) = None) →
  (∀ i, stop_request (world' i) = None) →
  (∀ i, makedirs_error (world i) = makedirs_error (world' i)
        ∧ ffmpeg_result (world i) = ffmpeg_result (world' i)) →
  status <$> tasks (run HAS_MUTAGEN config world (init ts))
  = status <$> tasks (run HAS_MUTAGEN config world' (init ts)).
Proof.
  intros Hnone Hnone' Hsame. unfold run. change (tasks (init ts)) with ts.
  destruct (run_from_no_stop HAS_MUTAGEN config world ts 0 (init ts))
    as (evs & _ & Hl & _ & _ & _ & _ & Hper); [by auto|done|done|].
  destruct (run_from_no_stop HAS_MUTAGEN config world' ts 0 (init ts))
    as (evs' & _ & Hl' & _ & _ & _ & _ & Hper'); [by auto|done|done|].
  simpl in Hl, Hl'. apply list_eq. intros i. rewrite !list_lookup_fmap.
  destruct (ts !! i) as [t0|] eqn:Ht0.
  - destruct (Hper i t0 Ht0) as [(t & Ht & Hst) _].
    destruct (Hper' i t0 Ht0) as [(t' & Ht' & Hst') _].
    change (0 + i)%nat with i in *. rewrite Ht, Ht'. simpl. rewrite Hst, Hst'.
    unfold succeeds. destruct (Hsame i) as [-> ->]. done.
  - apply lookup_ge_None in Ht0.
    rewrite !(proj2 (lookup_ge_None _ _)) by lia. done.
Qed.

Lemma warnings_not_fatal_witness :
  status <$> tasks (run true sample_config (λ _, env_ok)
                        (init [sample_task_a; sample_task_b]))
  = status <$> tasks (run true sample_config
                          (λ _, mkEnv None (Exited 0 "") (Some "no video stream")
                                      (Some "no tags") None 10 20)
                          (init [sample_task_a; sample_task_b])).
Proof.
  apply (warnings_not_fatal true sample_config [sample_task_a; sample_task_b]
           (λ _, env_ok)
           (λ _, mkEnv None (Exited 0 "") (Some "no video stream")
                       (Some "no tags") None 10 20)).
  - reflexivity.
  - reflexivity.
  - intros i. split; reflexivity.
Defined.

Lemma add_file_list_grows fs p w w' :
  MainWindow._add_file_to_list fs p w = Some w' →
  p ∈ MainWindow.file_list w'
  ∧ ∀ f, f ∈ MainWindow.file_list w → f ∈ MainWindow.file_list w'.
Proof.
  unfold MainWindow._add_file_to_list. intros H.
  case_bool_decide as Hp; [by simplify_eq|].
  destruct (MainWindow.ConversionTask_init fs p); [|done].
  injection H as <-. simpl. split.
  - apply elem_of_app. right. by apply list_elem_of_singleton.
  - intros f Hf. apply elem_of_app. by left.
Qed.

Lemma add_all_file_list_grows fs files : ∀ w w',
  MainWindow.add_all fs files w = Some w' →
  (∀ f, f ∈ files → f ∈ MainWindow.file_list w')
  ∧ (∀ f, f ∈ MainWindow.file_list w → f ∈ MainWindow.file_list w').
Proof.
  induction files as [|file files IH]; intros w w' H; simpl in H.
  - injection H as <-. split; [|done]. intros f Hf. by apply elem_of_nil in Hf.
  - destruct (MainWindow._add_file_to_list fs file w) as [w1|] eqn:E; [|done].
    destruct (add_file_list_grows _ _ _ _ E) as [Hin Hgrow].
    destruct (IH w1 w' H) as [IH1 IH2]. split.
    + intros f Hf. apply elem_of_cons in Hf as [->|Hf]; [by apply IH2|by apply IH1].
    + intros f Hf. by apply IH2, Hgrow.
Qed.

(** Adding a selection of files a second time changes nothing, whatever has
    become of the files in between. *)
Theorem add_files_twice (fs fs' : gmap string N) (files : list string)
    (w w' : MainWindow.t) :
  MainWindow.add_all fs files w = Some w' →
  MainWindow.add_all fs' files w' = Some w'.
Proof.
  intros H. apply add_all_listed. by apply (add_all_file_list_grows fs files w w').
Qed.

Lemma add_files_twice_witness :
  MainWindow.add_all ∅ ["/videos/a.mp4"; "/videos/b.mp4"]
    (MainWindow.mk
       [mkTask "/videos/a.mp4" "/videos/a.mp3" pending 0 "" None None 500000;
        mkTask "/videos/b.mp4" "/videos/b.mp3" pending 0 "" None None 300000]
       ["/videos/a.mp4"; "/videos/b.mp4"] 0 None true false false true true true)
  = Some (MainWindow.mk
       [mkTask "/videos/a.mp4" "/videos/a.mp3" pending 0 "" None None 500000;
        mkTask "/videos/b.mp4" "/videos/b.mp3" pending 0 "" None None 300000]
       ["/videos/a.mp4"; "/videos/b.mp4"] 0 None true false false true true true).
Proof.
  apply (add_files_twice sample_fs ∅ ["/videos/a.mp4"; "/videos/b.mp4"] MainWindow.new).
  reflexivity.
Defined.
